(** * lumina-client: the query URL builder, the pagination extractor and the
    nested-operations hook

    A shallow embedding of
      - [extractPaginationFromHeaders]           (lib/cogent.js, imported
        by the hooks as lib/pagination),
      - [buildQueryUrl], the query function of [useModelShow] and the
        mutation / success callbacks of [useNestedOperations]
                                                 (hooks/useModel.js),
    together with the few platform primitives they call ([String.prototype.trim],
    [parseInt], [URLSearchParams], [Set], the [||] and [!] operators),
    and, further down, of the other hooks of hooks/useModel.js, of
    hooks/useOrganization.js, hooks/useOwner.js, lib/storage.js,
    lib/storage.native.js, lib/axios.js and the organization and logout
    functions of context/AuthContext.jsx.

    Conventions.  A JavaScript string is a Rocq [string] whose characters are
    the code units of the JavaScript string; the development covers strings
    all of whose code units are below 256.  A JavaScript number that holds an
    integer is that integer ([Z]); what [parseInt] returns is rounded to
    the double the platform stores, or is an infinity.  Numbers given in
    options and identifiers are integers that print in plain decimal
    notation (magnitudes below 10^21). *)

From Stdlib Require Import ZArith List Ascii String Bool Lia.
From Stdlib Require Import Numbers.DecimalString.
From Stdlib Require Numbers.DecimalPos.
Import ListNotations.

Local Open Scope string_scope.
Local Open Scope Z_scope.

Set Warnings "-register-all".

(* ================================================================== *)
(** ** Platform primitives *)
(* ================================================================== *)

Module Js.

(** A thrown [Error] (or a rejected promise) carries its message. *)
Inductive JsError : Type :=
| Error (message : string).

(** The completion of a call: a value, or an exception. *)
Inductive Completion (A : Type) : Type :=
| Return (a : A)
| Throw (e : JsError).
Arguments Return {A} a.
Arguments Throw {A} e.

Definition bind {A B} (c : Completion A) (k : A -> Completion B) : Completion B :=
  match c with
  | Return a => k a
  | Throw e => Throw e
  end.

(** *** Characters *)

Definition code (c : ascii) : N := N_of_ascii c.

(** WhiteSpace and LineTerminator code units below 256: TAB, LF, VT, FF, CR,
    SP and NBSP. *)
Definition is_space (c : ascii) : bool :=
  let n := code c in
  (((9 <=? n) && (n <=? 13)) || (n =? 32) || (n =? 160))%N.

Definition is_digit (c : ascii) : bool :=
  let n := code c in ((48 <=? n) && (n <=? 57))%N.

Definition digit_value (c : ascii) : Z := Z.of_N (code c) - 48.

(** *** String.prototype.trim *)

Fixpoint trimStart (s : string) : string :=
  match s with
  | EmptyString => EmptyString
  | String c s' => if is_space c then trimStart s' else s
  end.

Fixpoint trimEnd (s : string) : string :=
  match s with
  | EmptyString => EmptyString
  | String c s' =>
      match trimEnd s' with
      | EmptyString => if is_space c then EmptyString else String c EmptyString
      | r => String c r
      end
  end.

Definition trim (s : string) : string := trimEnd (trimStart s).

(** *** Truthiness ([!x], [x && y], [x || y], [if (x)]) *)

(** A string is truthy unless it is empty; [undefined] is falsy. *)
Definition truthy_string (s : string) : bool :=
  match s with EmptyString => false | _ => true end.

Definition truthy_opt_string (v : option string) : bool :=
  match v with Some s => truthy_string s | None => false end.

(** *** Numbers *)

(** What [parseInt] can return: [NaN], an integer that a double holds, or
    an infinity. *)
Inductive number : Type :=
| NaN
| Num (z : Z)
| Infinity (negative : bool).

Coercion Num : Z >-> number.

(** A number is truthy unless it is [NaN] or zero. *)
Definition truthy_number (x : number) : bool :=
  match x with
  | NaN => false
  | Num z => negb (z =? 0)
  | Infinity _ => true
  end.

(** [x || d] for a parsed number [x] and an integer literal [d]. *)
Definition or_default (x : number) (d : Z) : number :=
  if truthy_number x then x else Num d.

(** The Number value of a mathematical integer: the integer itself below
    2^53; beyond, the nearest integer with 53 significant bits, a tie going
    to the even one; an infinity when that reaches 2^1024. *)
Definition to_double (z : Z) : number :=
  let a := Z.abs z in
  if a <? 2 ^ 53 then Num z
  else
    let e := Z.log2 a - 52 in
    let q := Z.shiftr a e in
    let r := a - Z.shiftl q e in
    let half := Z.shiftl 1 (e - 1) in
    let q' := if (half <? r) || ((r =? half) && Z.odd q) then q + 1 else q in
    let v := Z.shiftl q' e in
    if 2 ^ 1024 <=? v then Infinity (z <? 0) else Num (Z.sgn z * v).

(** The longest prefix of radix-10 digits, read left to right into [acc];
    [None] when the prefix is empty. *)
Fixpoint digits_from (s : string) (acc : option Z) : option Z :=
  match s with
  | EmptyString => acc
  | String c s' =>
      if is_digit c then
        digits_from s'
          (Some (match acc with
                 | None => digit_value c
                 | Some a => 10 * a + digit_value c
                 end))
      else acc
  end.

(** [parseInt(string, 10)]: skip leading white space, take an optional
    sign, then the longest run of decimal digits; [NaN] when that run is
    empty, else the Number value of the signed integer the digits denote.
    With radix 10 no [0x] prefix is recognised. *)
Definition parseInt10 (s : string) : number :=
  let s1 := trimStart s in
  let '(sign, s2) :=
    match s1 with
    | String "-"%char r => (-1, r)
    | String "+"%char r => (1, r)
    | _ => (1, s1)
    end in
  match digits_from s2 None with
  | None => NaN
  | Some z => to_double (sign * z)
  end.

(** [parseInt(v, 10)] for a value that is a string or [undefined]: the
    argument is first converted with ToString, and ToString(undefined) is
    the string [undefined]. *)
Definition parseInt (v : option string) : number :=
  match v with
  | Some s => parseInt10 s
  | None => parseInt10 "undefined"
  end.

(** ToString of an integer-valued number, in plain decimal notation: what
    JS writes for an integer of magnitude below 10^21.  Beyond that JS
    writes an exponent, which this function does not. *)
Definition string_of_Z (z : Z) : string :=
  NilZero.string_of_int (Z.to_int z).

(** Array.prototype.join on an array of strings. *)
Fixpoint join (sep : string) (l : list string) : string :=
  match l with
  | [] => ""
  | [x] => x
  | x :: rest => x ++ sep ++ join sep rest
  end.

(** *** Objects *)

Fixpoint all_digits (s : string) : bool :=
  match s with
  | EmptyString => true
  | String c s' => is_digit c && all_digits s'
  end.

(** The array index a property key is, if it is one: a decimal numeral
    without a leading zero ([0] itself apart) of a value up to 2^32 - 2. *)
Definition array_index (key : string) : option Z :=
  match key with
  | EmptyString => None
  | String c rest =>
      if all_digits key
         && (negb (Ascii.eqb c "0") || negb (truthy_string rest))
      then match digits_from key None with
           | Some n => if n <=? 4294967294 then Some n else None
           | None => None
           end
      else None
  end.

Section Objects.

Context {V : Type}.

(** [o[key] = value] on the properties of an object in the order of their
    creation: an existing property keeps its place. *)
Fixpoint obj_set (o : list (string * V)) (key : string) (value : V)
  : list (string * V) :=
  match o with
  | [] => [(key, value)]
  | (k, v) :: rest =>
      if String.eqb k key then (k, value) :: rest
      else (k, v) :: obj_set rest key value
  end.

(** The object that writing the given properties one after the other
    builds, as an object literal does. *)
Definition object_of (written : list (string * V)) : list (string * V) :=
  fold_left (fun o kv => obj_set o (fst kv) (snd kv)) written [].

(** Put an index property into a list that ascends by index. *)
Fixpoint insert_index (n : Z) (kv : string * V)
  (l : list (Z * (string * V))) : list (Z * (string * V)) :=
  match l with
  | [] => [(n, kv)]
  | (m, x) :: rest =>
      if n <? m then (n, kv) :: l else (m, x) :: insert_index n kv rest
  end.

Definition index_properties (o : list (string * V))
  : list (Z * (string * V)) :=
  fold_left
    (fun acc kv =>
       match array_index (fst kv) with
       | Some n => insert_index n kv acc
       | None => acc
       end)
    o [].

Definition is_string_property (kv : string * V) : bool :=
  match array_index (fst kv) with
  | Some _ => false
  | None => true
  end.

(** [Object.entries] of the object built from the properties as written:
    the array-index keys in ascending order first, then the other keys in
    the order of their creation. *)
Definition Object_entries (written : list (string * V))
  : list (string * V) :=
  (map snd (index_properties (object_of written))
   ++ filter is_string_property (object_of written))%list.

End Objects.

(** *** URLSearchParams *)

Definition URLSearchParams : Type := list (string * string).

Definition append (p : URLSearchParams) (name value : string) : URLSearchParams :=
  (p ++ [(name, value)])%list.

Definition hex_digit (n : N) : ascii :=
  if (n <? 10)%N then ascii_of_N (48 + n) else ascii_of_N (55 + n).

Definition percent (b : N) : string :=
  String "%"%char
    (String (hex_digit (b / 16)) (String (hex_digit (b mod 16)) EmptyString)).

(** Bytes the application/x-www-form-urlencoded serializer leaves as they
    are: ASCII letters and digits, [*], [-], [.] and [_]. *)
Definition urlencoded_safe (n : N) : bool :=
  (((48 <=? n) && (n <=? 57)) || ((65 <=? n) && (n <=? 90))
   || ((97 <=? n) && (n <=? 122))
   || (n =? 42) || (n =? 45) || (n =? 46) || (n =? 95))%N.

(** One code unit, UTF-8 encoded and then byte-serialized. *)
Definition encode_char (c : ascii) : string :=
  let n := code c in
  if (n =? 32)%N then "+"
  else if urlencoded_safe n then String c EmptyString
  else if (n <? 128)%N then percent n
  else percent (192 + n / 64) ++ percent (128 + n mod 64).

Fixpoint urlencode (s : string) : string :=
  match s with
  | EmptyString => EmptyString
  | String c s' => encode_char c ++ urlencode s'
  end.

(** [URLSearchParams.prototype.toString]. *)
Definition toString (p : URLSearchParams) : string :=
  join "&" (map (fun nv => urlencode (fst nv) ++ "=" ++ urlencode (snd nv)) p).

(** *** Set *)

(** A [Set] of strings keeps its elements in insertion order and ignores
    the insertion of an element it already holds. *)
Definition JsSet : Type := list string.

Definition set_has (s : JsSet) (x : string) : bool :=
  existsb (String.eqb x) s.

Definition set_add (s : JsSet) (x : string) : JsSet :=
  if set_has s x then s else (s ++ [x])%list.

(** [new Set(iterable)] adds the elements one after the other. *)
Definition new_Set (l : list string) : JsSet := fold_left set_add l [].

End Js.

(* ================================================================== *)
(** ** lib/cogent.js (imported as lib/pagination) *)
(* ================================================================== *)

Module Pagination.
Import Js.

(** [response.headers]: header names with their values; looking up a name
    that is not there yields [undefined] ([None]). *)
Definition Headers : Type := list (string * string).

Fixpoint header (h : Headers) (name : string) : option string :=
  match h with
  | [] => None
  | (n, v) :: rest => if String.eqb n name then Some v else header rest name
  end.

Record Response : Type := { headers : Headers }.

Record PaginationMeta : Type := {
  currentPage : number;
  lastPage : number;
  perPage : number;
  total : number
}.

Definition extractPaginationFromHeaders (response : Response)
  : option PaginationMeta :=
  let currentPage := header (headers response) "x-current-page" in
  let lastPage := header (headers response) "x-last-page" in
  let perPage := header (headers response) "x-per-page" in
  let total := header (headers response) "x-total" in
  if negb (truthy_opt_string currentPage) && negb (truthy_opt_string lastPage)
     && negb (truthy_opt_string perPage) && negb (truthy_opt_string total)
  then None
  else Some {| currentPage := or_default (parseInt currentPage) 1;
               lastPage := or_default (parseInt lastPage) 1;
               perPage := or_default (parseInt perPage) 15;
               total := or_default (parseInt total) 0 |}.

(** The four fields, to state properties once for all of them. *)
Inductive Field : Type := CurrentPage | LastPage | PerPage | Total.

Definition header_name (f : Field) : string :=
  match f with
  | CurrentPage => "x-current-page"
  | LastPage => "x-last-page"
  | PerPage => "x-per-page"
  | Total => "x-total"
  end.

Definition default (f : Field) : Z :=
  match f with
  | CurrentPage => 1
  | LastPage => 1
  | PerPage => 15
  | Total => 0
  end.

Definition field (f : Field) (m : PaginationMeta) : number :=
  match f with
  | CurrentPage => currentPage m
  | LastPage => lastPage m
  | PerPage => perPage m
  | Total => total m
  end.

(** The declared lower bound of a field: pages and page sizes start at 1,
    totals at 0. *)
Definition lower_bound (f : Field) : Z :=
  match f with
  | Total => 0
  | _ => 1
  end.

Definition lookup (r : Response) (f : Field) : option string :=
  header (headers r) (header_name f).

(** Did [parseInt] produce a number below zero? *)
Definition parses_negative (x : number) : bool :=
  match x with
  | Num z => z <? 0
  | Infinity negative => negative
  | NaN => false
  end.

(** [bound <= x] on numbers. *)
Definition at_least (bound : Z) (x : number) : Prop :=
  match x with
  | Num z => bound <= z
  | Infinity negative => negative = false
  | NaN => False
  end.

End Pagination.

(* ================================================================== *)
(** ** hooks/useModel.js *)
(* ================================================================== *)

Module UseModel.
Import Js.

(** *** Values *)

(** A filter value, as [params.append] sees it: it is converted to a string. *)
Inductive Scalar : Type :=
| SStr (s : string)
| SNum (z : Z)
| SBool (b : bool)
| SNull.

Definition scalar_to_string (v : Scalar) : string :=
  match v with
  | SStr s => s
  | SNum z => string_of_Z z
  | SBool true => "true"
  | SBool false => "false"
  | SNull => "null"
  end.

(** A resource identifier ([string | number]). *)
Inductive ResourceId : Type :=
| IdStr (s : string)
| IdNum (z : Z).

Definition id_to_string (i : ResourceId) : string :=
  match i with
  | IdStr s => s
  | IdNum z => string_of_Z z
  end.

(** [ModelQueryOptions] (types/index.ts); an omitted property is [None].
    [filters] lists the properties of the object in the order in which
    they were written. *)
Record ModelQueryOptions : Type := {
  filters : option (list (string * Scalar));
  includes : option (list string);
  sort : option string;
  fields : option (list string);
  search : option string;
  page : option Z;
  perPage : option Z;
  per_page : option Z
}.

(** [options = {}]. *)
Definition no_options : ModelQueryOptions :=
  {| filters := None; includes := None; sort := None; fields := None;
     search := None; page := None; perPage := None; per_page := None |}.

Definition truthy_opt_number (v : option Z) : bool :=
  match v with Some z => truthy_number (Num z) | None => false end.

(** [a || b] on two optional numbers. *)
Definition or_else (a b : option Z) : option Z :=
  if truthy_opt_number a then a else b.

Definition opt_number_to_string (v : option Z) : string :=
  match v with Some z => string_of_Z z | None => "undefined" end.

(** [Object.entries(filters).forEach(([key, value]) =>
      params.append(`filter[${key}]`, value))]. *)
Definition append_filters (params : URLSearchParams)
  (fs : list (string * Scalar)) : URLSearchParams :=
  fold_left
    (fun p kv => append p ("filter[" ++ fst kv ++ "]") (scalar_to_string (snd kv)))
    (Object_entries fs) params.

(** [if (options.<name> && options.<name>.length > 0)
      params.append(<key>, options.<name>.join(','))]. *)
Definition append_joined (params : URLSearchParams) (key : string)
  (v : option (list string)) : URLSearchParams :=
  match v with
  | Some l => if (0 <? List.length l)%nat then append params key (join "," l)
              else params
  | None => params
  end.

(** [if (options.<name>) params.append(<key>, options.<name>)] on a string. *)
Definition append_string (params : URLSearchParams) (key : string)
  (v : option string) : URLSearchParams :=
  match v with
  | Some s => if truthy_string s then append params key s else params
  | None => params
  end.

(** The same on a number. *)
Definition append_number (params : URLSearchParams) (key : string)
  (v : option Z) : URLSearchParams :=
  if truthy_opt_number v then append params key (opt_number_to_string v)
  else params.

(** [queryString ? `${url}?${queryString}` : url]. *)
Definition with_query (url : string) (params : URLSearchParams) : string :=
  let queryString := toString params in
  if truthy_string queryString then url ++ "?" ++ queryString else url.

(** *** buildQueryUrl *)

Definition buildQueryUrl (model organization : string)
  (options : ModelQueryOptions) : Completion string :=
  if negb (truthy_string organization) then
    Throw (Error "Organization slug is required")
  else
    let orgSlug := trim organization in
    if negb (truthy_string orgSlug) then
      Throw (Error "Organization slug is required and must be a non-empty string")
    else
      let url := "/" ++ orgSlug ++ "/" ++ model in
      let params : URLSearchParams := [] in
      let params :=
        match filters options with
        | Some fs => append_filters params fs
        | None => params
        end in
      let params := append_joined params "include" (includes options) in
      let params := append_string params "sort" (sort options) in
      let params := append_joined params "fields" (fields options) in
      let params := append_string params "search" (search options) in
      let params := append_number params "page" (page options) in
      let params :=
        append_number params "per_page"
          (or_else (perPage options) (per_page options)) in
      Return (with_query url params).

(** *** The transport *)

(** JSON-like data: request payload fields and response bodies. *)
Inductive Json : Type :=
| JNull
| JBool (b : bool)
| JNum (z : Z)
| JStr (s : string)
| JArr (items : list Json)
| JObj (members : list (string * Json)).

Inductive Action : Type := create | update | delete.

(** [NestedOperation] (types/index.ts). *)
Record NestedOperation : Type := {
  action : Action;
  model : string;
  id : option ResourceId;
  data : option (list (string * Json))
}.

Inductive Method : Type := GET | POST.

(** The second argument of [api.post]: here always [{ operations }]. *)
Inductive Body : Type :=
| Operations (operations : list NestedOperation).

Record Request : Type := {
  method : Method;
  url : string;
  body : option Body
}.

Record Response : Type := { response_data : Json }.

(** A pending call: it runs against the requests the transport has been
    handed so far, and settles with a value or a rejection. *)
Definition Promise (A : Type) : Type :=
  list Request -> Completion A * list Request.

Definition resolve {A} (a : A) : Promise A := fun sent => (Return a, sent).
Definition reject {A} (e : JsError) : Promise A := fun sent => (Throw e, sent).

(** [p.then(k)] / [await p; k]. *)
Definition and_then {A B} (p : Promise A) (k : A -> Promise B) : Promise B :=
  fun sent =>
    match p sent with
    | (Return a, sent') => k a sent'
    | (Throw e, sent') => (Throw e, sent')
    end.

Section Hooks.

(** The axios instance: what the backend answers to a request. *)
Variable api : Request -> Completion Response.

Definition api_get (u : string) : Promise Response :=
  fun sent =>
    let r := {| method := GET; url := u; body := None |} in
    (api r, (sent ++ [r])%list).

Definition api_post (u : string) (b : Body) : Promise Response :=
  fun sent =>
    let r := {| method := POST; url := u; body := Some b |} in
    (api r, (sent ++ [r])%list).

(** *** useModelShow: the query function *)

(** The URL the query function computes before it calls [api.get].  For
    [ModelQueryOptions], [includes] and [fields] are arrays, so
    [Array.isArray] holds and the conditionals take the [join] branch. *)
Definition useModelShow_finalUrl (organization model : string)
  (id : ResourceId) (options : ModelQueryOptions) : Completion string :=
  let orgSlug := trim organization in
  if negb (truthy_string orgSlug) then
    Throw (Error "Organization slug is required. Please ensure you are logged in and have selected an organization.")
  else
    let params : URLSearchParams := [] in
    let params := append_joined params "include" (includes options) in
    let params :=
      match filters options with
      | Some fs => append_filters params fs
      | None => params
      end in
    let params := append_string params "sort" (sort options) in
    let params := append_joined params "fields" (fields options) in
    let queryString := toString params in
    Return
      (if truthy_string queryString
       then "/" ++ orgSlug ++ "/" ++ model ++ "/" ++ id_to_string id
            ++ "?" ++ queryString
       else "/" ++ orgSlug ++ "/" ++ model ++ "/" ++ id_to_string id).

Definition useModelShow_queryFn (organization model : string)
  (id : ResourceId) (options : ModelQueryOptions) : Promise Json :=
  match useModelShow_finalUrl organization model id options with
  | Throw e => reject e
  | Return finalUrl =>
      and_then (api_get finalUrl) (fun response =>
      resolve (response_data response))
  end.

(** *** useNestedOperations *)

(** [mutationFn: ({ operations }) => api.post(url, { operations })
      .then((res) => res.data)]. *)
Definition useNestedOperations_mutationFn (organization : string)
  (operations : list NestedOperation) : Promise Json :=
  let url := "/" ++ organization ++ "/nested-operations" in
  and_then (api_post url (Operations operations)) (fun res =>
  resolve (response_data res)).

End Hooks.

(** A query key, as passed to [queryClient.invalidateQueries]. *)
Definition QueryKey : Type := list string.

Definition key_dec : forall a b : list string, {a = b} + {a <> b} :=
  list_eq_dec string_dec.

Definition affectedModels (operations : list NestedOperation) : JsSet :=
  new_Set (map model operations).

(** [onSuccess]: the calls to [queryClient.invalidateQueries], in order. *)
Definition useNestedOperations_onSuccess (operations : list NestedOperation)
  : list QueryKey :=
  flat_map (fun m => [["modelIndex"; m]; ["modelShow"; m]])
    (affectedModels operations).

End UseModel.

(* ================================================================== *)
(** ** The specification's side *)
(* ================================================================== *)

(** The parameter groups of a query string, written after the
    specification's sentence on the construction of the URL: one pair per
    filter entry, a single comma-joined [include], a single [sort], a single
    comma-joined [fields], a single [search], a single [page] and a single
    [per_page] that prefers [perPage].  The filter entries are taken in the
    order of [Object.entries]; [filter_group_as_written] takes them in the
    order in which they were written, as the specification has it. *)
Module UrlSpec.
Import Js UseModel.

Definition filter_param (kv : string * Scalar) : string * string :=
  ("filter[" ++ fst kv ++ "]", scalar_to_string (snd kv)).

Definition filter_group (o : ModelQueryOptions) : URLSearchParams :=
  match filters o with
  | Some fs => map filter_param (Object_entries fs)
  | None => []
  end.

Definition filter_group_as_written (o : ModelQueryOptions) : URLSearchParams :=
  match filters o with
  | Some fs => map filter_param fs
  | None => []
  end.

Definition joined_group (key : string) (v : option (list string))
  : URLSearchParams :=
  match v with
  | Some (x :: l) => [(key, join "," (x :: l))]
  | _ => []
  end.

Definition string_group (key : string) (v : option string) : URLSearchParams :=
  match v with
  | Some (String c s) => [(key, String c s)]
  | _ => []
  end.

Definition number_group (key : string) (v : option Z) : URLSearchParams :=
  match v with
  | Some n => if n =? 0 then [] else [(key, string_of_Z n)]
  | None => []
  end.

Definition per_page_group (o : ModelQueryOptions) : URLSearchParams :=
  match number_group "per_page" (perPage o) with
  | [] => number_group "per_page" (per_page o)
  | g => g
  end.

(** List reads: filters, include, sort, fields, search, page, per_page. *)
Definition listing_params (o : ModelQueryOptions) : URLSearchParams :=
  (filter_group o ++ joined_group "include" (includes o)
   ++ string_group "sort" (sort o) ++ joined_group "fields" (fields o)
   ++ string_group "search" (search o) ++ number_group "page" (page o)
   ++ per_page_group o)%list.

(** [/<organization>/<model>/<id>]. *)
Definition resource_path (organization model : string) (id : ResourceId)
  : string :=
  "/" ++ trim organization ++ "/" ++ model ++ "/" ++ id_to_string id.

(** List reads with the filters in the order in which they were written. *)
Definition listing_params_as_written (o : ModelQueryOptions)
  : URLSearchParams :=
  (filter_group_as_written o ++ joined_group "include" (includes o)
   ++ string_group "sort" (sort o) ++ joined_group "fields" (fields o)
   ++ string_group "search" (search o) ++ number_group "page" (page o)
   ++ per_page_group o)%list.

(** Single-resource reads in the order of the list reads: filters,
    include, sort, fields. *)
Definition resource_params_filters_first (o : ModelQueryOptions)
  : URLSearchParams :=
  (filter_group o ++ joined_group "include" (includes o)
   ++ string_group "sort" (sort o) ++ joined_group "fields" (fields o))%list.

(** Single-resource reads in the order of the wire contract
    ([?include=...&filter[...]=...&sort=...&fields=...]). *)
Definition resource_params (o : ModelQueryOptions) : URLSearchParams :=
  (joined_group "include" (includes o) ++ filter_group o
   ++ string_group "sort" (sort o) ++ joined_group "fields" (fields o))%list.

End UrlSpec.

(** Reference tokens, written after the specification's data model: a
    string leaf [$<N>.<fieldPath>] inside the [id] or the [data] of an
    operation refers to the result of operation [N]; at position [i] it is
    a forward or self reference when [N >= i]. *)
Module BatchSpec.
Import Js UseModel.

Fixpoint skip_digits (s : string) : string :=
  match s with
  | EmptyString => EmptyString
  | String c s' => if is_digit c then skip_digits s' else s
  end.

(** The index [N] of a reference token, [None] for any other string. *)
Definition reference_index (s : string) : option Z :=
  match s with
  | String "$"%char r =>
      match digits_from r None, skip_digits r with
      | Some n, String "."%char (String _ _) => Some n
      | _, _ => None
      end
  | _ => None
  end.

(** The string leaves of a value. *)
Fixpoint leaves (j : Json) : list string :=
  match j with
  | JStr s => [s]
  | JArr items => flat_map leaves items
  | JObj members => flat_map (fun kv => leaves (snd kv)) members
  | _ => []
  end.

Definition operation_leaves (op : NestedOperation) : list string :=
  (match id op with Some (IdStr s) => [s] | _ => [] end
   ++ match data op with
      | Some members => flat_map (fun kv => leaves (snd kv)) members
      | None => []
      end)%list.

(** Does the operation at position [i] hold a token with [N >= i]? *)
Definition refers_forward (i : Z) (op : NestedOperation) : bool :=
  existsb
    (fun s => match reference_index s with
              | Some n => i <=? n
              | None => false
              end)
    (operation_leaves op).

Fixpoint forward_reference_from (i : Z) (ops : list NestedOperation) : bool :=
  match ops with
  | [] => false
  | op :: rest => refers_forward i op || forward_reference_from (i + 1) rest
  end.

Definition has_forward_reference (ops : list NestedOperation) : bool :=
  forward_reference_from 0 ops.

End BatchSpec.

(** Sample inputs: the calls the specification and the tests spell out. *)
Module Samples.
Import Js UseModel.

Definition published_posts : ModelQueryOptions :=
  {| filters := Some [("status", SStr "published"); ("author_id", SNum 1)];
     includes := None; sort := Some "-created_at"; fields := None;
     search := None; page := Some 2; perPage := Some 20; per_page := None |}.

(** [{ filters: { status: 'draft', 10: 'a', 2: 'b' } }]. *)
Definition numbered_filters : ModelQueryOptions :=
  {| filters := Some [("status", SStr "draft"); ("10", SStr "a");
                      ("2", SStr "b")];
     includes := None; sort := None; fields := None;
     search := None; page := None; perPage := None; per_page := None |}.

(** [useModelShow('posts', 1, { includes: ['author'],
      filters: { status: 'active' } })]. *)
Definition post_with_author : ModelQueryOptions :=
  {| filters := Some [("status", SStr "active")];
     includes := Some ["author"]; sort := None; fields := None;
     search := None; page := None; perPage := None; per_page := None |}.

(** Operation 0 refers to the result of operation 1. *)
Definition forward_batch : list NestedOperation :=
  [ {| action := create; model := "a"; id := None;
       data := Some [("x", JStr "$1.id")] |};
    {| action := create; model := "b"; id := None; data := Some [] |} ].

(** Three operations on the models blogs, posts, blogs. *)
Definition blog_batch : list NestedOperation :=
  [ {| action := create; model := "blogs"; id := None;
       data := Some [("title", JStr "Blog")] |};
    {| action := create; model := "posts"; id := None;
       data := Some [("title", JStr "Post")] |};
    {| action := update; model := "blogs"; id := Some (IdNum 1);
       data := Some [("title", JStr "Updated")] |} ].

(** Operation 1 refers to the result of operation 0. *)
Definition chained_batch : list NestedOperation :=
  [ {| action := create; model := "blogs"; id := None;
       data := Some [("title", JStr "B")] |};
    {| action := create; model := "posts"; id := None;
       data := Some [("blog_id", JStr "$0.id"); ("title", JStr "P")] |} ].

(** Headers of which the first does not parse. *)
Definition abc_response : Pagination.Response :=
  {| Pagination.headers :=
       [("x-current-page", "abc"); ("x-last-page", "10");
        ("x-per-page", "20"); ("x-total", "50")] |}.

(** A run of 310 digits, a one and 309 zeros: the integer 10^309. *)
Fixpoint zeros (n : nat) : string :=
  match n with
  | O => EmptyString
  | S k => String "0" (zeros k)
  end.

Definition beyond_doubles : string := String "1" (zeros 309).

Definition overflow_response : Pagination.Response :=
  {| Pagination.headers :=
       [("x-current-page", beyond_doubles); ("x-last-page", "10");
        ("x-per-page", "20"); ("x-total", "50")] |}.

Definition abc_meta : Pagination.PaginationMeta :=
  {| Pagination.currentPage := 1; Pagination.lastPage := 10;
     Pagination.perPage := 20; Pagination.total := 50 |}.

(** A backend that accepts every request and answers with an empty array. *)
Definition accepting (r : Request) : Completion Response :=
  Return {| response_data := JArr [] |}.

End Samples.

(* ================================================================== *)
(** ** Notions used to state further properties *)
(* ================================================================== *)

Module Notions.
Import Js UseModel.

(** How often a character occurs in a string. *)
Fixpoint count_char (c : ascii) (s : string) : nat :=
  match s with
  | EmptyString => O
  | String x s' => ((if Ascii.eqb x c then 1 else 0) + count_char c s')%nat
  end.

(** Is every character white space? *)
Fixpoint all_spaces (s : string) : bool :=
  match s with
  | EmptyString => true
  | String c s' => is_space c && all_spaces s'
  end.

(** Does the string end the run of digits before it: is it empty, or does
    it start with something that is not a digit? *)
Definition ends_digits (s : string) : bool :=
  match s with
  | EmptyString => true
  | String c _ => negb (is_digit c)
  end.

(** The sign [parseInt] reads, and what is left for the digits. *)
Definition sign_split (s1 : string) : Z * string :=
  match s1 with
  | String "-"%char r => (-1, r)
  | String "+"%char r => (1, r)
  | _ => (1, s1)
  end.

(** The options with every falsy value ([''], [0], an empty array, an
    empty filter object) left out. *)
Definition omit_falsy (o : ModelQueryOptions) : ModelQueryOptions :=
  {| filters := match filters o with Some [] => None | v => v end;
     includes := match includes o with Some [] => None | v => v end;
     sort := match sort o with Some EmptyString => None | v => v end;
     fields := match fields o with Some [] => None | v => v end;
     search := match search o with Some EmptyString => None | v => v end;
     page := match page o with Some 0 => None | v => v end;
     perPage := match perPage o with Some 0 => None | v => v end;
     per_page := match per_page o with Some 0 => None | v => v end |}.

(** The options with [perPage] and [per_page] replaced. *)
Definition with_per_page (o : ModelQueryOptions) (a b : option Z)
  : ModelQueryOptions :=
  {| filters := filters o; includes := includes o; sort := sort o;
     fields := fields o; search := search o; page := page o;
     perPage := a; per_page := b |}.

End Notions.

(* ================================================================== *)
(** ** hooks/useModel.js: the hooks *)
(* ================================================================== *)

Module ModelHooks.
Import Js UseModel.

(** *** The axios instance *)

Inductive Verb : Type := Get | Post | Put | Delete.

(** One call of [api.get], [api.post], [api.put] or [api.delete]; the
    payload is the second argument, when there is one. *)
Record Call : Type := {
  verb : Verb;
  target : string;
  payload : option Json
}.

(** A response: its body and its headers. *)
Record Reply : Type := {
  reply_data : Json;
  reply_headers : Pagination.Headers
}.

(** A pending call, run against the calls made so far. *)
Definition Task (A : Type) : Type := list Call -> Completion A * list Call.

Definition ret {A} (a : A) : Task A := fun calls => (Return a, calls).

Definition fail {A} (e : JsError) : Task A := fun calls => (Throw e, calls).

Definition then_ {A B} (t : Task A) (k : A -> Task B) : Task B :=
  fun calls =>
    match t calls with
    | (Return a, calls') => k a calls'
    | (Throw e, calls') => (Throw e, calls')
    end.

(** *** React Query *)

(** An element of a query key. *)
Inductive KeyPart : Type :=
| KStr (s : string)
| KId (i : ResourceId)
| KOptions (o : ModelQueryOptions).

(** What a query hook returns: the object literal with [isError: true], or
    the query handed to [useQuery]. *)
Inductive QueryResult (F : Type) : Type :=
| ErrorState (error : JsError)
| UseQuery (queryKey : list KeyPart) (queryFn : F) (enabled : bool).
Arguments ErrorState {F} error.
Arguments UseQuery {F} queryKey queryFn enabled.

(** What a mutation hook hands to [useMutation]. *)
Record Mutation (V : Type) : Type := {
  mutationFn : V -> Task Json;
  onSuccess : list QueryKey
}.
Arguments mutationFn {V} m.
Arguments onSuccess {V} m.

(** [invalidateQueries({ queryKey })] reaches the queries whose key starts
    with the given elements. *)
Fixpoint key_matches (given : QueryKey) (key : list KeyPart) : bool :=
  match given, key with
  | [], _ => true
  | g :: given', KStr s :: key' => String.eqb g s && key_matches given' key'
  | _, _ => false
  end.

Definition invalidates (given : list QueryKey) (key : list KeyPart) : bool :=
  existsb (fun g => key_matches g key) given.

(** *** Values in templates and conditions *)

(** [`${organization}`] for the value of [useOrganization()], a string or
    [null]. *)
Definition slug_text (organization : option string) : string :=
  match organization with
  | Some s => s
  | None => "null"
  end.

Definition truthy_id (i : ResourceId) : bool :=
  match i with
  | IdStr s => truthy_string s
  | IdNum z => truthy_number (Num z)
  end.

Definition truthy_opt_id (id : option ResourceId) : bool :=
  match id with Some i => truthy_id i | None => false end.

(** [`${id}`] for an identifier that may be [undefined]. *)
Definition id_text (id : option ResourceId) : string :=
  match id with
  | Some i => id_to_string i
  | None => "undefined"
  end.

(** The value of [{ data: response.data, pagination }]. *)
Record Page : Type := {
  page_data : Json;
  pagination : option Pagination.PaginationMeta
}.

Section Client.

Variable api : Call -> Completion Reply.

Definition request (v : Verb) (u : string) (b : option Json) : Task Reply :=
  fun calls =>
    let c := {| verb := v; target := u; payload := b |} in
    (api c, (calls ++ [c])%list).

(** [api.get(u)], then the body with the pagination of the headers. *)
Definition get_page (u : string) : Task Page :=
  then_ (request Get u None) (fun response =>
  let pagination :=
    Pagination.extractPaginationFromHeaders
      {| Pagination.headers := reply_headers response |} in
  ret {| page_data := reply_data response; pagination := pagination |}).

(** [api.<verb>(u, b).then((res) => res.data)]. *)
Definition send (v : Verb) (u : string) (b : option Json) : Task Json :=
  then_ (request v u b) (fun res => ret (reply_data res)).

(** *** useModelIndex *)

Definition useModelIndex (organization : option string) (model : string)
  (options : ModelQueryOptions) : Completion (QueryResult (Task Page)) :=
  if negb (truthy_opt_string organization) then
    Return (ErrorState (Error "Organization slug is required"))
  else
    bind (buildQueryUrl model (slug_text organization) options) (fun url =>
    Return
      (UseQuery
         [KStr "modelIndex"; KStr model; KStr (slug_text organization);
          KOptions options]
         (get_page url)
         (truthy_opt_string organization))).

(** *** useModelShow *)

Definition useModelShow (organization : option string) (model : string)
  (id : option ResourceId) (options : ModelQueryOptions)
  : QueryResult (Task Json) :=
  if negb (truthy_opt_string organization) then
    ErrorState (Error "Organization slug is required")
  else
    match id with
    | Some i =>
        if negb (truthy_id i) then
          ErrorState (Error "ID is required for useModelShow")
        else
          UseQuery
            [KStr "modelShow"; KStr model; KId i;
             KStr (slug_text organization); KOptions options]
            (match useModelShow_finalUrl (slug_text organization) model i
                     options with
             | Throw e => fail e
             | Return finalUrl => send Get finalUrl None
             end)
            (truthy_opt_string organization && truthy_id i
             && truthy_string (trim (slug_text organization)))
    | None => ErrorState (Error "ID is required for useModelShow")
    end.

(** *** useModelUpdate, useModelDelete, useModelStore *)

Definition no_organization : JsError :=
  Error "Organization slug is required. All routes must include organization in the URL (e.g., /org-slug/dashboard)".

Definition useModelUpdate (organization : option string) (model : string)
  : Completion (Mutation (option ResourceId * option Json)) :=
  if negb (truthy_opt_string organization) then Throw no_organization
  else
    Return
      {| mutationFn := fun v =>
           let url :=
             "/" ++ slug_text organization ++ "/" ++ model ++ "/"
             ++ id_text (fst v) in
           send Put url (snd v);
         onSuccess := [["modelIndex"; model]; ["modelShow"; model]] |}.

Definition useModelDelete (organization : option string) (model : string)
  : Completion (Mutation (option ResourceId)) :=
  if negb (truthy_opt_string organization) then Throw no_organization
  else
    Return
      {| mutationFn := fun id =>
           let url :=
             "/" ++ slug_text organization ++ "/" ++ model ++ "/"
             ++ id_text id in
           send Delete url None;
         onSuccess := [["modelIndex"; model]; ["modelShow"; model]] |}.

Definition useModelStore (organization : option string) (model : string)
  : Completion (Mutation (option Json)) :=
  if negb (truthy_opt_string organization) then Throw no_organization
  else
    Return
      {| mutationFn := fun data =>
           let url := "/" ++ slug_text organization ++ "/" ++ model in
           send Post url data;
         onSuccess := [["modelIndex"; model]; ["modelShow"; model]] |}.

(** *** useModelTrashed *)

Definition useModelTrashed_finalUrl (organization model : string)
  (options : ModelQueryOptions) : string :=
  let orgSlug := trim organization in
  let url := "/" ++ orgSlug ++ "/" ++ model ++ "/trashed" in
  let params : URLSearchParams := [] in
  let params :=
    match filters options with
    | Some fs => append_filters params fs
    | None => params
    end in
  let params := append_joined params "include" (includes options) in
  let params := append_string params "sort" (sort options) in
  let params := append_joined params "fields" (fields options) in
  let params := append_string params "search" (search options) in
  let params := append_number params "page" (page options) in
  let params :=
    append_number params "per_page"
      (or_else (perPage options) (per_page options)) in
  let queryString := toString params in
  if truthy_string queryString then url ++ "?" ++ queryString else url.

Definition useModelTrashed (organization : option string) (model : string)
  (options : ModelQueryOptions) : QueryResult (Task Page) :=
  if negb (truthy_opt_string organization) then
    ErrorState (Error "Organization slug is required")
  else
    UseQuery
      [KStr "modelTrashed"; KStr model; KStr (slug_text organization);
       KOptions options]
      (get_page
         (useModelTrashed_finalUrl (slug_text organization) model options))
      (truthy_opt_string organization).

(** *** useModelRestore, useModelForceDelete *)

Definition useModelRestore (organization : option string) (model : string)
  : Completion (Mutation (option ResourceId)) :=
  if negb (truthy_opt_string organization) then Throw no_organization
  else
    Return
      {| mutationFn := fun id =>
           let url :=
             "/" ++ slug_text organization ++ "/" ++ model ++ "/"
             ++ id_text id ++ "/restore" in
           send Post url None;
         onSuccess :=
           [["modelIndex"; model]; ["modelTrashed"; model];
            ["modelShow"; model]] |}.

Definition useModelForceDelete (organization : option string) (model : string)
  : Completion (Mutation (option ResourceId)) :=
  if negb (truthy_opt_string organization) then Throw no_organization
  else
    Return
      {| mutationFn := fun id =>
           let url :=
             "/" ++ slug_text organization ++ "/" ++ model ++ "/"
             ++ id_text id ++ "/force-delete" in
           send Delete url None;
         onSuccess := [["modelTrashed"; model]] |}.

(** *** useModelAudit *)

Definition useModelAudit_finalUrl (organization model : string)
  (id : ResourceId) (options : ModelQueryOptions) : string :=
  let orgSlug := trim organization in
  let url :=
    "/" ++ orgSlug ++ "/" ++ model ++ "/" ++ id_to_string id ++ "/audit" in
  let params : URLSearchParams := [] in
  let params := append_number params "page" (page options) in
  let params :=
    append_number params "per_page"
      (or_else (perPage options) (per_page options)) in
  let queryString := toString params in
  if truthy_string queryString then url ++ "?" ++ queryString else url.

Definition useModelAudit (organization : option string) (model : string)
  (id : option ResourceId) (options : ModelQueryOptions)
  : QueryResult (Task Page) :=
  if negb (truthy_opt_string organization) then
    ErrorState (Error "Organization slug is required")
  else
    match id with
    | Some i =>
        if negb (truthy_id i) then
          ErrorState (Error "ID is required for useModelAudit")
        else
          UseQuery
            [KStr "modelAudit"; KStr model; KId i;
             KStr (slug_text organization); KOptions options]
            (get_page
               (useModelAudit_finalUrl (slug_text organization) model i
                  options))
            (truthy_opt_string organization && truthy_id i)
    | None => ErrorState (Error "ID is required for useModelAudit")
    end.

End Client.

(** The key of the query a hook hands to [useQuery], when it does. *)
Definition key_of {F} (r : QueryResult F) : option (list KeyPart) :=
  match r with
  | UseQuery k _ _ => Some k
  | ErrorState _ => None
  end.

End ModelHooks.

(** The mutation hooks of a model, and what each invalidates on success. *)
Module Writes.
Import Js UseModel ModelHooks.

Inductive WriteHook : Type := Store | Update | SoftDelete | Restore | ForceDelete.

Definition success_keys {V} (c : Completion (Mutation V)) : list QueryKey :=
  match c with
  | Return m => onSuccess m
  | Throw _ => []
  end.

Definition invalidated_by (api : Call -> Completion Reply) (h : WriteHook)
  (organization : option string) (model : string) : list QueryKey :=
  match h with
  | Store => success_keys (useModelStore api organization model)
  | Update => success_keys (useModelUpdate api organization model)
  | SoftDelete => success_keys (useModelDelete api organization model)
  | Restore => success_keys (useModelRestore api organization model)
  | ForceDelete => success_keys (useModelForceDelete api organization model)
  end.

(** The type of the axios instance. *)
Definition Api : Type := Call -> Completion Reply.

(** A backend that answers every call with an empty array and no headers. *)
Definition quiet (c : Call) : Completion Reply :=
  Return {| reply_data := JArr []; reply_headers := [] |}.

(** Does the hook refresh the lists and the single records? *)
Definition refreshes_live (h : WriteHook) : bool :=
  match h with
  | ForceDelete => false
  | _ => true
  end.

(** Does the hook refresh the lists of trashed records? *)
Definition refreshes_trash (h : WriteHook) : bool :=
  match h with
  | Restore | ForceDelete => true
  | _ => false
  end.

(** The key of the query of [useModelIndex], when it hands one over. *)
Definition index_key (c : Completion (QueryResult (Task Page)))
  : option (list KeyPart) :=
  match c with
  | Return r => key_of r
  | Throw _ => None
  end.

End Writes.

(* ================================================================== *)
(** ** lib/storage.js, lib/storage.native.js *)
(* ================================================================== *)

(** The web adapter hands every call to [localStorage]: a table from keys
    to strings, where a key that is not there reads as [null]. *)
Module WebStorage.

Definition LocalStorage : Type := string -> option string.

Definition empty : LocalStorage := fun _ => None.

Definition getItem (ls : LocalStorage) (key : string) : option string :=
  ls key.

Definition setItem (ls : LocalStorage) (key value : string) : LocalStorage :=
  fun k => if String.eqb k key then Some value else ls k.

Definition removeItem (ls : LocalStorage) (key : string) : LocalStorage :=
  fun k => if String.eqb k key then None else ls k.

End WebStorage.

(** The React Native adapter keeps an object [cache] in memory and writes
    through to [AsyncStorage] in the background. *)
Module NativeStorage.

(** The own properties of [cache]. *)
Definition Cache : Type := string -> option string.

(** [AsyncStorage], as [multiGet] reads it. *)
Definition Disk : Type := string -> option string.

(** The members every object inherits from [Object.prototype]. *)
Definition inherited_names : list string :=
  ["constructor"; "hasOwnProperty"; "isPrototypeOf"; "propertyIsEnumerable";
   "toLocaleString"; "toString"; "valueOf"; "__proto__";
   "__defineGetter__"; "__defineSetter__"; "__lookupGetter__";
   "__lookupSetter__"].

Definition inherited (key : string) : bool :=
  existsb (String.eqb key) inherited_names.

(** What [cache[key] ?? null] evaluates to: a stored string, [null], or a
    member of [Object.prototype] when the key names one and [cache] has no
    property of its own under it. *)
Inductive Item : Type :=
| Text (value : string)
| Null
| Inherited.

Definition getItem (cache : Cache) (key : string) : Item :=
  match cache key with
  | Some v => Text v
  | None => if inherited key then Inherited else Null
  end.

(** [cache[key] = value]; assigning a string to [__proto__] runs the
    inherited setter, which ignores it. *)
Definition assign (cache : Cache) (key value : string) : Cache :=
  if String.eqb key "__proto__" then cache
  else fun k => if String.eqb k key then Some value else cache k.

(** [delete cache[key]]. *)
Definition delete_key (cache : Cache) (key : string) : Cache :=
  fun k => if String.eqb k key then None else cache k.

Record State : Type := {
  cache : Cache;
  disk : Disk;
  initialized : bool
}.

(** [setItem]: the cache is written at once; the write to [AsyncStorage]
    lands or fails ([landed]), and a failure is only logged. *)
Definition setItem (landed : bool) (s : State) (key value : string) : State :=
  {| cache := assign (cache s) key value;
     disk := if landed
             then fun k => if String.eqb k key then Some value else disk s k
             else disk s;
     initialized := initialized s |}.

Definition removeItem (landed : bool) (s : State) (key : string) : State :=
  {| cache := delete_key (cache s) key;
     disk := if landed
             then fun k => if String.eqb k key then None else disk s k
             else disk s;
     initialized := initialized s |}.

Definition keys : list string :=
  ["token"; "user"; "organization_slug"; "last_organization"].

(** [for (const [key, value] of pairs) if (value !== null) cache[key] = value]. *)
Definition load (d : Disk) (c : Cache) (ks : list string) : Cache :=
  fold_left
    (fun c key => match d key with
                  | Some value => assign c key value
                  | None => c
                  end)
    ks c.

Definition initStorage (s : State) : State :=
  {| cache := load (disk s) (cache s) keys;
     disk := disk s;
     initialized := true |}.

(** The module as it is after import: an empty cache over what
    [AsyncStorage] holds. *)
Definition fresh (d : Disk) : State :=
  {| cache := fun _ => None; disk := d; initialized := false |}.

(** The app is started again: the cache is empty, and [initStorage] runs
    over what [AsyncStorage] holds. *)
Definition restart (s : State) : State := initStorage (fresh (disk s)).

Definition is_key (k : string) : bool := existsb (String.eqb k) keys.

End NativeStorage.

(* ================================================================== *)
(** ** hooks/useOrganization.js, context/AuthContext.jsx, lib/axios.js *)
(* ================================================================== *)

(** The browser side these files act on: [localStorage]; the
    [useOrganization] hooks whose effect has run ([mounted]: each with its
    state, subscribed to the [organization_slug] events); the hooks that
    have rendered for the first time and whose effect has not run yet
    ([rendering]: each with the state it rendered with, not subscribed);
    and what [events.emit] has sent. *)
Module Session.
Import Js WebStorage.

Record World : Type := {
  local : LocalStorage;
  mounted : list (option string);
  rendering : list (option string);
  emitted : list (string * option string)
}.

(** The string a value that is a string or [null] stands for. *)
Definition string_value (slug : option string) : string :=
  match slug with
  | Some s => s
  | None => "null"
  end.

(** [events.emit(key, value)]: every subscriber of the key is called with
    the value; the subscribers of [organization_slug] are the mounted
    hooks, whose callback is [setOrganization(newValue)].  A hook whose
    effect has not run is not subscribed, and is not called. *)
Definition emit (key : string) (value : option string) (w : World) : World :=
  {| local := local w;
     mounted := if String.eqb key "organization_slug"
                then map (fun _ => value) (mounted w)
                else mounted w;
     rendering := rendering w;
     emitted := (emitted w ++ [(key, value)])%list |}.

Definition store (key value : string) (w : World) : World :=
  {| local := setItem (local w) key value;
     mounted := mounted w; rendering := rendering w;
     emitted := emitted w |}.

Definition remove (key : string) (w : World) : World :=
  {| local := removeItem (local w) key;
     mounted := mounted w; rendering := rendering w;
     emitted := emitted w |}.

(** *** useOrganization.js *)

(** The list without its element at position [i]. *)
Fixpoint drop_nth {A} (i : nat) (l : list A) : list A :=
  match l, i with
  | [], _ => []
  | _ :: t, O => t
  | x :: t, S j => x :: drop_nth j t
  end.

(** [useOrganization()] on its first render: the state starts as
    [storage.getItem('organization_slug')] and is returned; the effect has
    not run yet. *)
Definition useOrganization_render (w : World) : option string * World :=
  let organization := getItem (local w) "organization_slug" in
  (organization,
   {| local := local w;
      mounted := mounted w;
      rendering := (rendering w ++ [organization])%list;
      emitted := emitted w |}).

(** The effect of the rendering hook at position [i] runs: the hook
    subscribes, with the state it rendered with. *)
Definition useOrganization_effect (i : nat) (w : World) : World :=
  match nth_error (rendering w) i with
  | Some state =>
      {| local := local w;
         mounted := (mounted w ++ [state])%list;
         rendering := drop_nth i (rendering w);
         emitted := emitted w |}
  | None => w
  end.

(** The effect's cleanup of the mounted hook at position [i]. *)
Definition useOrganization_unmount (i : nat) (w : World) : World :=
  {| local := local w; mounted := drop_nth i (mounted w);
     rendering := rendering w; emitted := emitted w |}.

Definition setOrganization (slug : option string) (w : World) : World :=
  let w :=
    if truthy_opt_string slug
    then store "organization_slug" (string_value slug) w
    else remove "organization_slug" w in
  emit "organization_slug" slug w.

(** *** AuthContext.jsx *)

(** [setOrganization] of the auth context. *)
Definition auth_setOrganization (slug : option string) (w : World) : World :=
  let w :=
    if truthy_opt_string slug
    then store "last_organization" (string_value slug)
           (store "organization_slug" (string_value slug) w)
    else remove "last_organization" (remove "organization_slug" w) in
  emit "organization_slug" slug w.

(** The effect on [token]: it runs after a render in which the token
    changed. *)
Definition token_effect (token : option string) (w : World) : World :=
  if truthy_opt_string token then store "token" (string_value token) w
  else remove "token" w.

(** [logout]: [answered] tells whether [api.post('/auth/logout')] resolved;
    a failure is only logged, and either way the [finally] block runs.  The
    result is the new token state and the world; the call to the backend
    itself is not part of the world. *)
Definition logout (answered : bool) (w : World) : option string * World :=
  (None,
   remove "organization_slug" (remove "last_organization" (remove "user" w))).

(** The organization a hook finds when it mounts after
    [setOrganization(slug)]. *)
Definition organization_after (slug : option string) (w : World)
  : option string :=
  fst (useOrganization_render (setOrganization slug w)).

(** [logout], then the effect on the token it has set. *)
Definition logout_then_effect (answered : bool) (w : World) : World :=
  token_effect (fst (logout answered w)) (snd (logout answered w)).

(** What can happen to the organization in a running app. *)
Inductive Op : Type :=
| Render
| Effect (i : nat)
| Unmount (i : nat)
| SetOrganization (slug : option string)
| AuthSetOrganization (slug : option string).

Definition step (w : World) (op : Op) : World :=
  match op with
  | Render => snd (useOrganization_render w)
  | Effect i => useOrganization_effect i w
  | Unmount i => useOrganization_unmount i w
  | SetOrganization slug => setOrganization slug w
  | AuthSetOrganization slug => auth_setOrganization slug w
  end.

Definition run (ops : list Op) (w : World) : World := fold_left step ops w.



(** A hook agrees with the storage: both hold no usable slug, or both hold
    the same one. *)
Definition agrees (stored state : option string) : Prop :=
  truthy_opt_string state = truthy_opt_string stored
  /\ (truthy_opt_string state = true -> state = stored).

(** Every hook, subscribed or not yet, agrees with the storage. *)
Definition coherent (w : World) : Prop :=
  Forall (agrees (getItem (local w) "organization_slug"))
    (mounted w ++ rendering w).

(** A world with nothing stored and no hook. *)
Definition blank : World :=
  {| local := WebStorage.empty; mounted := []; rendering := [];
     emitted := [] |}.

(** *** lib/axios.js *)

(** The module state of axios.js besides the storage: the base URL, the
    handler given to [configureApi], whether there is a [window], where
    the page points, and how often the handler was called. *)
Record Client : Type := {
  baseURL : string;
  onUnauthorized : option string;
  has_window : bool;
  location : string;
  handler_calls : list string
}.

Record ApiOptions : Type := {
  opt_baseURL : option string;
  opt_onUnauthorized : option string
}.

Definition configureApi (options : ApiOptions) (c : Client) : Client :=
  let c :=
    if truthy_opt_string (opt_baseURL options)
    then {| baseURL := string_value (opt_baseURL options);
            onUnauthorized := onUnauthorized c; has_window := has_window c;
            location := location c; handler_calls := handler_calls c |}
    else c in
  match opt_onUnauthorized options with
  | Some h => {| baseURL := baseURL c; onUnauthorized := Some h;
                 has_window := has_window c; location := location c;
                 handler_calls := handler_calls c |}
  | None => c
  end.

(** The headers of a request configuration. *)
Definition RequestHeaders : Type := string -> option string.

(** The request interceptor. *)
Definition attach_token (ls : LocalStorage) (headers : RequestHeaders)
  : RequestHeaders :=
  let token := getItem ls "token" in
  if truthy_opt_string token
  then fun name =>
         if String.eqb name "Authorization"
         then Some ("Bearer " ++ string_value token)
         else headers name
  else headers.

(** An error the transport rejects with: the status of the response, when
    there is one, and the message, when there is one. *)
Record TransportError : Type := {
  status : option Z;
  message : option string
}.

(** [String.prototype.includes]. *)
Fixpoint includes (s sub : string) : bool :=
  String.prefix sub s
  || match s with
     | EmptyString => false
     | String _ s' => includes s' sub
     end.

(** What the response interceptor rejects with. *)
Inductive Rejection : Type :=
| CorsError
| Original (e : TransportError).

Definition is_cors (e : TransportError) : bool :=
  match status e, message e with
  | None, Some m => truthy_string m && includes m "CORS"
  | _, _ => false
  end.

(** The response interceptor's error handler. *)
Definition on_response_error (e : TransportError) (c : Client)
  (ls : LocalStorage) : Rejection * Client * LocalStorage :=
  if is_cors e then (CorsError, c, ls)
  else
    match status e with
    | Some 401 =>
        let ls := removeItem ls "token" in
        let c :=
          match onUnauthorized c with
          | Some h =>
              {| baseURL := baseURL c; onUnauthorized := onUnauthorized c;
                 has_window := has_window c; location := location c;
                 handler_calls := (handler_calls c ++ [h])%list |}
          | None =>
              if has_window c
              then {| baseURL := baseURL c; onUnauthorized := onUnauthorized c;
                      has_window := has_window c; location := "/";
                      handler_calls := handler_calls c |}
              else c
          end in
        (Original e, c, ls)
    | _ => (Original e, c, ls)
    end.

End Session.

(* ================================================================== *)
(** ** hooks/useOwner.js *)
(* ================================================================== *)

Module Owner.
Import Js UseModel ModelHooks.

(** Characters [encodeURIComponent] leaves as they are: ASCII letters and
    digits and [- _ . ! ~ * ' ( )]. *)
Definition uri_unreserved (n : N) : bool :=
  (((48 <=? n) && (n <=? 57)) || ((65 <=? n) && (n <=? 90))
   || ((97 <=? n) && (n <=? 122))
   || (n =? 45) || (n =? 95) || (n =? 46) || (n =? 33) || (n =? 126)
   || (n =? 42) || (n =? 39) || (n =? 40) || (n =? 41))%N.

Definition encode_component_char (c : ascii) : string :=
  let n := code c in
  if uri_unreserved n then String c EmptyString
  else if (n <? 128)%N then percent n
  else percent (192 + n / 64) ++ percent (128 + n mod 64).

Fixpoint encodeURIComponent (s : string) : string :=
  match s with
  | EmptyString => EmptyString
  | String c s' => encode_component_char c ++ encodeURIComponent s'
  end.

(** How the query function settles: with a value, with the rejection of
    the transport, or with the TypeError of reading a property of [null]. *)
Inductive Settled : Type :=
| Resolved (value : Json)
| Rejected (e : JsError)
| TypeError.

(** The member of an object under a name; of two members with the same
    name the later one counts. *)
Fixpoint member (name : string) (members : list (string * Json))
  : option Json :=
  match members with
  | [] => None
  | (n, v) :: rest =>
      match member name rest with
      | Some later => Some later
      | None => if String.eqb n name then Some v else None
      end
  end.

(** [o.slug === targetSlug]; [None] when reading the property throws. *)
Definition has_slug (targetSlug : string) (o : Json) : option bool :=
  match o with
  | JNull => None
  | JObj members =>
      Some match member "slug" members with
           | Some (JStr s) => String.eqb s targetSlug
           | _ => false
           end
  | _ => Some false
  end.

(** [data.find(o => o.slug === targetSlug)]; the outer [None] is the
    TypeError, the inner one [undefined]. *)
Fixpoint find_slug (targetSlug : string) (items : list Json)
  : option (option Json) :=
  match items with
  | [] => Some None
  | o :: rest =>
      match has_slug targetSlug o with
      | None => None
      | Some true => Some (Some o)
      | Some false => find_slug targetSlug rest
      end
  end.

(** What the query function makes of [response.data]. *)
Definition pick (targetSlug : string) (data : Json) : Settled :=
  match data with
  | JArr items =>
      match find_slug targetSlug items with
      | None => TypeError
      | Some (Some org) => Resolved org
      | Some None =>
          Resolved match items with
                   | first :: _ => first
                   | [] => JNull
                   end
      end
  | _ => Resolved data
  end.

(** What the hook returns: the idle object, or the query. *)
Inductive OwnerResult : Type :=
| Idle
| OwnerQuery (queryKey : list string) (url : string)
    (queryFn : list Call -> Settled * list Call) (enabled : bool).

Section Client.

Variable api : Call -> Completion Reply.

Definition useOwner (slug organizationFromUrl : option string) : OwnerResult :=
  let targetSlug :=
    if truthy_opt_string slug then slug else organizationFromUrl in
  if negb (truthy_opt_string targetSlug) then Idle
  else
    let url :=
      "/" ++ slug_text targetSlug ++ "/organizations?filter[slug]="
      ++ encodeURIComponent (slug_text targetSlug) ++ "&include=users" in
    OwnerQuery ["owner"; slug_text targetSlug] url
      (fun calls =>
         let c := {| verb := Get; target := url; payload := None |} in
         (match api c with
          | Return response => pick (slug_text targetSlug) (reply_data response)
          | Throw e => Rejected e
          end,
          (calls ++ [c])%list))
      (truthy_opt_string targetSlug).

End Client.

(** Is the value an object whose [slug] is the given string? *)
Definition is_org (targetSlug : string) (o : Json) : bool :=
  match has_slug targetSlug o with
  | Some b => b
  | None => false
  end.

End Owner.

(* ================================================================== *)
(** ** Pagination metadata *)
(* ================================================================== *)

Section PaginationFacts.
Import Js Pagination Samples.

(** The object the function builds when it does not return [null]. *)
Lemma extract_fields (r : Response) (m : PaginationMeta) :
  extractPaginationFromHeaders r = Some m ->
  forall f, field f m = or_default (parseInt (lookup r f)) (default f).
Proof.
  unfold extractPaginationFromHeaders, lookup.
  destruct (_ && _); [discriminate|].
  intros [= <-] f. destruct f; reflexivity.
Qed.

(** [null] is returned exactly when the four looked-up values are falsy. *)
Lemma extract_null (r : Response) :
  extractPaginationFromHeaders r = None <->
  forall f, truthy_opt_string (lookup r f) = false.
Proof.
  unfold extractPaginationFromHeaders, lookup. split.
  - destruct (_ && _) eqn:E; [|discriminate]. intros _.
    apply andb_prop in E as [E E4]. apply andb_prop in E as [E E3].
    apply andb_prop in E as [E1 E2].
    intros f; destruct f; simpl; apply negb_true_iff; assumption.
  - intros H.
    rewrite (H CurrentPage : truthy_opt_string (header _ "x-current-page") = _).
    rewrite (H LastPage : truthy_opt_string (header _ "x-last-page") = _).
    rewrite (H PerPage : truthy_opt_string (header _ "x-per-page") = _).
    rewrite (H Total : truthy_opt_string (header _ "x-total") = _).
    reflexivity.
Qed.

Lemma extract_truthy (r : Response) (f : Field) :
  truthy_opt_string (lookup r f) = true ->
  exists m, extractPaginationFromHeaders r = Some m.
Proof.
  intros T. destruct (extractPaginationFromHeaders r) as [m|] eqn:E.
  - now exists m.
  - rewrite (proj1 (extract_null r) E f) in T. discriminate.
Qed.

Lemma falsy_absent_or_empty (v : option string) :
  truthy_opt_string v = false <-> v = None \/ v = Some "".
Proof.
  destruct v as [[|c s]|]; simpl; split; intros H; auto; try discriminate.
  - destruct H as [H|H]; discriminate.
Qed.

(** C2, as the code has it: a header whose value is the string [0] makes the
    result non-null, and its field is the field's default (1, 1, 15, 0): the
    parsed zero is falsy, so [||] takes the default; only for [total] is
    that 0. *)
Theorem zero_header_yields_default (r : Response) (f : Field) :
  lookup r f = Some "0" ->
  exists m, extractPaginationFromHeaders r = Some m /\ field f m = default f.
Proof.
  intros H.
  destruct (extract_truthy r f) as [m E]; [now rewrite H|].
  exists m. split; [assumption|].
  rewrite (extract_fields r m E f), H. reflexivity.
Qed.

Lemma zero_header_yields_default_witness :
  exists m,
    extractPaginationFromHeaders {| headers := [("x-total", "0")] |} = Some m
    /\ field Total m = 0.
Proof.
  apply (zero_header_yields_default {| headers := [("x-total", "0")] |} Total).
  reflexivity.
Defined.

(** C2 fails for the three fields whose default is not 0: with
    [x-current-page: 0] the current page is 1, not 0. *)
Lemma zero_current_page_is_not_zero :
  lookup {| headers := [("x-current-page", "0")] |} CurrentPage = Some "0" /\
  extractPaginationFromHeaders {| headers := [("x-current-page", "0")] |}
  = Some {| currentPage := 1; lastPage := 1; perPage := 15; total := 0 |} /\
  ~ (exists m,
       extractPaginationFromHeaders {| headers := [("x-current-page", "0")] |}
       = Some m /\ field CurrentPage m = 0).
Proof.
  split; [reflexivity|]. split; [reflexivity|].
  intros [m [E F]]. vm_compute in E. injection E as <-. discriminate.
Qed.

(** C4, as the code has it: the result is [null] exactly when each of the
    four looked-up values is absent or the empty string. *)
Theorem null_iff_all_absent_or_empty (r : Response) :
  extractPaginationFromHeaders r = None <->
  forall f, lookup r f = None \/ lookup r f = Some "".
Proof.
  rewrite extract_null. split; intros H f.
  - apply falsy_absent_or_empty, H.
  - apply falsy_absent_or_empty, H.
Qed.

(** C4 fails when a header is present with an empty value: the result is
    [null] although a lookup is not absent. *)
Lemma present_empty_header_gives_null :
  lookup {| headers := [("x-total", "")] |} Total = Some "" /\
  extractPaginationFromHeaders {| headers := [("x-total", "")] |} = None /\
  ~ (forall f, lookup {| headers := [("x-total", "")] |} f = None).
Proof.
  split; [reflexivity|]. split; [reflexivity|].
  intros H. specialize (H Total). discriminate.
Qed.

(** C6, as the code has it: a field whose header does not parse to a
    negative number respects its bound (at least 1 for the pages and the
    page size, at least 0 for the total). *)
Theorem field_bound_unless_negative (r : Response) (m : PaginationMeta)
  (f : Field) :
  extractPaginationFromHeaders r = Some m ->
  parses_negative (parseInt (lookup r f)) = false ->
  at_least (lower_bound f) (field f m).
Proof.
  intros E N. rewrite (extract_fields r m E f). unfold or_default.
  destruct (parseInt (lookup r f)) as [|z|negative]; simpl in *.
  - destruct f; simpl; lia.
  - apply Z.ltb_ge in N.
    destruct (z =? 0) eqn:Z0; simpl.
    + destruct f; simpl; lia.
    + apply Z.eqb_neq in Z0. destruct f; simpl; lia.
  - assumption.
Qed.

Lemma field_bound_unless_negative_witness :
  at_least 1
    (field CurrentPage
       {| currentPage := 1; lastPage := 1; perPage := 15; total := 0 |}).
Proof.
  apply (field_bound_unless_negative
           {| headers := [("x-current-page", "0")] |} _ CurrentPage);
    reflexivity.
Defined.

(** C6 fails on a negative header value: [x-current-page: -3] gives a
    current page of -3. *)
Lemma negative_header_breaks_bound :
  exists m,
    extractPaginationFromHeaders {| headers := [("x-current-page", "-3")] |}
    = Some m /\ currentPage m = -3 /\ ~ at_least 1 (currentPage m).
Proof.
  eexists. split; [reflexivity|]. simpl. split; [reflexivity|lia].
Qed.

(** C9, as the code has it: in the returned object, a header that is
    present and in which [parseInt] finds no number ([NaN]) gives its field
    the field's own default, and every field is computed from its own
    header alone: what [parseInt] reads when that is truthy, else the
    default. *)
Theorem unparsable_header_defaults_alone (r : Response) (m : PaginationMeta)
  (f : Field) (v : string) :
  extractPaginationFromHeaders r = Some m ->
  lookup r f = Some v ->
  parseInt10 v = NaN ->
  field f m = default f /\
  forall g, field g m = or_default (parseInt (lookup r g)) (default g).
Proof.
  intros E L P. split.
  - rewrite (extract_fields r m E f), L. simpl. rewrite P. reflexivity.
  - apply extract_fields, E.
Qed.

Lemma unparsable_header_defaults_alone_witness :
  extractPaginationFromHeaders abc_response = Some abc_meta /\
  field CurrentPage abc_meta = 1 /\
  forall g,
    field g abc_meta
    = or_default (parseInt (lookup abc_response g)) (default g).
Proof.
  split; [reflexivity|].
  apply (unparsable_header_defaults_alone abc_response abc_meta
           CurrentPage "abc"); reflexivity.
Defined.

(** C9 fails on a run of digits beyond the range of doubles: it reads as
    [Infinity], which is no finite integer, and [||] keeps it. *)
Lemma overflowing_header_is_kept :
  lookup overflow_response CurrentPage = Some beyond_doubles
  /\ parseInt10 beyond_doubles = Infinity false
  /\ extractPaginationFromHeaders overflow_response
     = Some {| currentPage := Infinity false; lastPage := 10; perPage := 20;
               total := 50 |}
  /\ ~ (exists m,
          extractPaginationFromHeaders overflow_response = Some m
          /\ field CurrentPage m = default CurrentPage).
Proof.
  assert (parseInt10 beyond_doubles = Infinity false) as P
    by (vm_compute; reflexivity).
  assert (extractPaginationFromHeaders overflow_response
          = Some {| currentPage := Infinity false; lastPage := 10;
                    perPage := 20; total := 50 |}) as E
    by (vm_compute; reflexivity).
  split; [reflexivity|]. split; [exact P|]. split; [exact E|].
  intros [m [E' F]]. rewrite E in E'. injection E' as <-. discriminate.
Qed.

Example no_headers_is_null :
  extractPaginationFromHeaders {| headers := [] |} = None.
Proof. reflexivity. Qed.

Example only_total_zero :
  extractPaginationFromHeaders {| headers := [("x-total", "0")] |}
  = Some {| currentPage := 1; lastPage := 1; perPage := 15; total := 0 |}.
Proof. reflexivity. Qed.

End PaginationFacts.

(* ================================================================== *)
(** ** Query URLs *)
(* ================================================================== *)

Section UrlFacts.
Import Js UseModel UrlSpec Samples.

Lemma append_assoc (a b c : string) : (a ++ b) ++ c = a ++ b ++ c.
Proof. induction a as [|x a IH]; simpl; [reflexivity|now rewrite IH]. Qed.

Lemma append_empty (a : string) : a ++ "" = a.
Proof. induction a as [|x a IH]; simpl; [reflexivity|now rewrite IH]. Qed.

(** A path keeps its segments when something is appended to it. *)
Lemma path_append (t m rest : string) :
  ("/" ++ t ++ "/" ++ m) ++ rest = "/" ++ t ++ "/" ++ m ++ rest.
Proof. simpl. f_equal. rewrite append_assoc. reflexivity. Qed.

Lemma truthy_nonempty (s : string) : truthy_string s = true <-> s <> "".
Proof. destruct s; simpl; split; intros H; congruence. Qed.

(** Appending in a loop is concatenation with the mapped entries. *)
Lemma append_filters_group (p : URLSearchParams) (fs : list (string * Scalar)) :
  append_filters p fs = (p ++ map filter_param (Object_entries fs))%list.
Proof.
  unfold append_filters. generalize (Object_entries fs) as es. revert p.
  intros p es. revert p.
  induction es as [|kv es IH]; intros p; simpl.
  - now rewrite app_nil_r.
  - rewrite IH. unfold append. now rewrite <- app_assoc.
Qed.

Lemma filters_step (p : URLSearchParams) (o : ModelQueryOptions) :
  match filters o with
  | Some fs => append_filters p fs
  | None => p
  end = (p ++ filter_group o)%list.
Proof.
  unfold filter_group. destruct (filters o) as [fs|].
  - apply append_filters_group.
  - now rewrite app_nil_r.
Qed.

Lemma joined_step (p : URLSearchParams) (key : string)
  (v : option (list string)) :
  append_joined p key v = (p ++ joined_group key v)%list.
Proof.
  destruct v as [[|x l]|]; simpl; try now rewrite app_nil_r.
  reflexivity.
Qed.

Lemma string_step (p : URLSearchParams) (key : string) (v : option string) :
  append_string p key v = (p ++ string_group key v)%list.
Proof.
  destruct v as [[|c s]|]; simpl; try now rewrite app_nil_r.
  reflexivity.
Qed.

Lemma number_step (p : URLSearchParams) (key : string) (v : option Z) :
  append_number p key v = (p ++ number_group key v)%list.
Proof.
  unfold append_number, number_group.
  destruct v as [n|]; simpl; [|now rewrite app_nil_r].
  destruct (n =? 0); simpl; [now rewrite app_nil_r|reflexivity].
Qed.

Lemma per_page_step (p : URLSearchParams) (o : ModelQueryOptions) :
  append_number p "per_page" (or_else (perPage o) (per_page o)) =
  (p ++ per_page_group o)%list.
Proof.
  rewrite number_step. f_equal.
  unfold per_page_group, or_else, number_group.
  destruct (perPage o) as [n|]; simpl; [|reflexivity].
  destruct (n =? 0) eqn:E; simpl; [reflexivity|now rewrite E].
Qed.

(** *** The order of the filters *)

Lemma obj_set_new {V} (o : list (string * V)) (key : string) (value : V) :
  ~ In key (map fst o) -> obj_set o key value = (o ++ [(key, value)])%list.
Proof.
  induction o as [|[k v] o IH]; intros N; simpl; [reflexivity|].
  destruct (String.eqb k key) eqn:E.
  - apply String.eqb_eq in E. exfalso. apply N. now left.
  - rewrite IH; [reflexivity|]. intros I. apply N. now right.
Qed.

Lemma object_of_distinct {V} (written : list (string * V)) :
  NoDup (map fst written) -> object_of written = written.
Proof.
  unfold object_of.
  assert (forall acc,
             NoDup (map fst (acc ++ written)) ->
             fold_left (fun o kv => obj_set o (fst kv) (snd kv)) written acc
             = (acc ++ written)%list) as H.
  { induction written as [|[k v] written IH]; intros acc N; simpl.
    - now rewrite app_nil_r.
    - rewrite obj_set_new.
      + rewrite IH; rewrite <- app_assoc; [reflexivity|exact N].
      + rewrite map_app in N. simpl in N.
        apply NoDup_remove_2 in N. intros I. apply N.
        apply in_or_app. now left. }
  intros N. now apply (H []).
Qed.

Lemma index_properties_acc {V} (o : list (string * V))
  (acc : list (Z * (string * V))) :
  (forall k, In k (map fst o) -> array_index k = None) ->
  fold_left
    (fun acc kv =>
       match array_index (fst kv) with
       | Some n => insert_index n kv acc
       | None => acc
       end) o acc = acc.
Proof.
  revert acc. induction o as [|[k v] o IH]; intros acc H; simpl.
  - reflexivity.
  - rewrite (H k) by now left. apply IH. intros k' I. apply H. now right.
Qed.

Lemma string_properties_all {V} (o : list (string * V)) :
  (forall k, In k (map fst o) -> array_index k = None) ->
  filter is_string_property o = o.
Proof.
  induction o as [|[k v] o IH]; intros H; simpl; [reflexivity|].
  unfold is_string_property at 1. simpl. rewrite (H k) by now left.
  f_equal. apply IH. intros k' I. apply H. now right.
Qed.

(** Without array-index keys, [Object.entries] yields the properties as
    they were written. *)
Lemma Object_entries_as_written {V} (written : list (string * V)) :
  NoDup (map fst written) ->
  (forall k, In k (map fst written) -> array_index k = None) ->
  Object_entries written = written.
Proof.
  intros N H. unfold Object_entries, index_properties.
  rewrite (object_of_distinct written N).
  rewrite (index_properties_acc written [] H).
  now rewrite (string_properties_all written H).
Qed.

(** What [buildQueryUrl] returns for a usable organization. *)
Lemma buildQueryUrl_returns (model organization : string)
  (options : ModelQueryOptions) :
  trim organization <> "" ->
  buildQueryUrl model organization options =
  Return (with_query ("/" ++ trim organization ++ "/" ++ model)
            (listing_params options)).
Proof.
  intros T. unfold buildQueryUrl. cbv zeta.
  assert (O : truthy_string organization = true).
  { apply truthy_nonempty. intros ->. now apply T. }
  rewrite O. apply truthy_nonempty in T. rewrite T. simpl negb. cbv iota.
  rewrite per_page_step, number_step, string_step, joined_step, string_step,
    joined_step, filters_step.
  unfold listing_params. simpl app at 1.
  repeat rewrite <- app_assoc. reflexivity.
Qed.

(** C5, as the code has it: the parameters of a list URL are the groups in
    the fixed order filters, include, sort, fields, search, page, per_page;
    a group whose option is omitted contributes nothing; the filters come
    in the order of [Object.entries] -- array-index keys first, ascending,
    then the other keys as written -- which is the order in which they were
    written when no key is an array index. *)
Theorem buildQueryUrl_groups_in_order (model organization : string)
  (options : ModelQueryOptions) :
  trim organization <> "" ->
  buildQueryUrl model organization options =
  Return (with_query ("/" ++ trim organization ++ "/" ++ model)
            (filter_group options ++ joined_group "include" (includes options)
             ++ string_group "sort" (sort options)
             ++ joined_group "fields" (fields options)
             ++ string_group "search" (search options)
             ++ number_group "page" (page options)
             ++ per_page_group options)%list)
  /\ (filters options = None -> filter_group options = [])
  /\ (includes options = None -> joined_group "include" (includes options) = [])
  /\ (sort options = None -> string_group "sort" (sort options) = [])
  /\ (fields options = None -> joined_group "fields" (fields options) = [])
  /\ (search options = None -> string_group "search" (search options) = [])
  /\ (page options = None -> number_group "page" (page options) = [])
  /\ (perPage options = None -> per_page options = None ->
      per_page_group options = [])
  /\ (forall fs,
        filters options = Some fs ->
        filter_group options = map filter_param (Object_entries fs))
  /\ (forall fs,
        filters options = Some fs ->
        NoDup (map fst fs) ->
        (forall k, In k (map fst fs) -> array_index k = None) ->
        filter_group options = filter_group_as_written options).
Proof.
  intros T. split; [now apply buildQueryUrl_returns|].
  unfold filter_group, filter_group_as_written, per_page_group.
  repeat split; try (intros ->; reflexivity).
  - intros -> ->. reflexivity.
  - intros fs ->. reflexivity.
  - intros fs -> N H. now rewrite Object_entries_as_written.
Qed.

Lemma buildQueryUrl_groups_in_order_witness :
  buildQueryUrl "posts" "acme" published_posts =
  Return "/acme/posts?filter%5Bstatus%5D=published&filter%5Bauthor_id%5D=1&sort=-created_at&page=2&per_page=20"
  /\ listing_params published_posts =
     [("filter[status]", "published"); ("filter[author_id]", "1");
      ("sort", "-created_at"); ("page", "2"); ("per_page", "20")].
Proof.
  split; [|reflexivity].
  destruct (buildQueryUrl_groups_in_order "posts" "acme" published_posts)
    as [E _]; [discriminate|].
  rewrite E. reflexivity.
Defined.

(** C5 fails on filter keys that are array indices: written after
    [status], the keys [10] and [2] still come first, and in ascending
    order. *)
Lemma integer_like_filter_keys_come_first :
  buildQueryUrl "posts" "acme" numbered_filters
  = Return "/acme/posts?filter%5B2%5D=b&filter%5B10%5D=a&filter%5Bstatus%5D=draft"
  /\ with_query "/acme/posts" (listing_params_as_written numbered_filters)
     = "/acme/posts?filter%5Bstatus%5D=draft&filter%5B10%5D=a&filter%5B2%5D=b"
  /\ buildQueryUrl "posts" "acme" numbered_filters
     <> Return (with_query "/acme/posts"
                  (listing_params_as_written numbered_filters)).
Proof.
  split; [reflexivity|]. split; [reflexivity|]. discriminate.
Qed.

(** C7: an organization that is empty after trimming makes [buildQueryUrl]
    throw, whatever the model and the options; nothing is returned that
    could be requested. *)
Theorem buildQueryUrl_rejects_blank_organization (model organization : string)
  (options : ModelQueryOptions) :
  trim organization = "" ->
  buildQueryUrl model organization options =
    Throw (Error "Organization slug is required")
  \/ buildQueryUrl model organization options =
    Throw (Error "Organization slug is required and must be a non-empty string").
Proof.
  intros T. unfold buildQueryUrl.
  destruct (truthy_string organization); simpl; [|now left].
  rewrite T. simpl. now right.
Qed.

Lemma buildQueryUrl_rejects_blank_organization_witness :
  buildQueryUrl "posts" "" no_options =
    Throw (Error "Organization slug is required")
  \/ buildQueryUrl "posts" "" no_options =
    Throw (Error "Organization slug is required and must be a non-empty string").
Proof.
  apply (buildQueryUrl_rejects_blank_organization "posts" "" no_options).
  reflexivity.
Defined.

(** C10: the URL starts with the trimmed organization and the model, both
    verbatim; what follows is nothing, or [?] and the encoded parameters. *)
Theorem buildQueryUrl_path_verbatim (model organization : string)
  (options : ModelQueryOptions) :
  trim organization <> "" ->
  exists rest,
    buildQueryUrl model organization options =
    Return ("/" ++ trim organization ++ "/" ++ model ++ rest)
    /\ (rest = "" \/ rest = "?" ++ toString (listing_params options)).
Proof.
  intros T. rewrite (buildQueryUrl_returns _ _ _ T). unfold with_query.
  destruct (truthy_string (toString (listing_params options))).
  - exists ("?" ++ toString (listing_params options)). split; [|now right].
    now rewrite path_append.
  - exists "". split; [|now left].
    now rewrite <- path_append, append_empty.
Qed.

Example whitespace_organization_is_rejected :
  buildQueryUrl "posts" "   " no_options =
  Throw (Error "Organization slug is required and must be a non-empty string").
Proof. reflexivity. Qed.

Lemma buildQueryUrl_path_verbatim_witness :
  exists rest,
    buildQueryUrl "x&y" " a/b?c " no_options = Return ("/a/b?c/x&y" ++ rest)
    /\ (rest = "" \/ rest = "?" ++ toString (listing_params no_options)).
Proof.
  apply (buildQueryUrl_path_verbatim "x&y" " a/b?c " no_options).
  discriminate.
Defined.

(** What the query function of [useModelShow] computes for a usable
    organization. *)
Lemma useModelShow_finalUrl_returns (organization model : string)
  (id : ResourceId) (options : ModelQueryOptions) :
  trim organization <> "" ->
  useModelShow_finalUrl organization model id options =
  Return (with_query (resource_path organization model id)
            (resource_params options)).
Proof.
  intros T. unfold useModelShow_finalUrl. cbv zeta.
  apply truthy_nonempty in T. rewrite T. clear T. simpl negb. cbv iota.
  rewrite joined_step, string_step, filters_step, joined_step.
  rewrite !app_nil_l. repeat rewrite <- app_assoc.
  unfold with_query, resource_params, resource_path.
  destruct (truthy_string _); [|reflexivity].
  f_equal. rewrite path_append. now rewrite !append_assoc.
Qed.

(** C3, as the code has it: the single-resource URL is
    [/<organization>/<model>/<id>] followed by the groups include, filters,
    sort and fields, in this order and no others; this is the URL the query
    function requests, and it does not depend on the search and pagination
    options. *)
Theorem useModelShow_url_include_first
  (api : Request -> Completion Response) (organization model : string)
  (id : ResourceId) (options : ModelQueryOptions) (sent : list Request) :
  trim organization <> "" ->
  useModelShow_finalUrl organization model id options
  = Return
      (with_query (resource_path organization model id)
         (joined_group "include" (includes options) ++ filter_group options
          ++ string_group "sort" (sort options)
          ++ joined_group "fields" (fields options))%list)
  /\ snd (useModelShow_queryFn api organization model id options sent)
     = (sent ++
        [{| method := GET;
            url :=
              with_query (resource_path organization model id)
                (joined_group "include" (includes options)
                 ++ filter_group options
                 ++ string_group "sort" (sort options)
                 ++ joined_group "fields" (fields options))%list;
            body := None |}])%list
  /\ forall s p pp pp',
       useModelShow_finalUrl organization model id
         {| filters := filters options; includes := includes options;
            sort := sort options; fields := fields options;
            search := s; page := p; perPage := pp; per_page := pp' |}
       = useModelShow_finalUrl organization model id options.
Proof.
  intros T.
  pose proof (useModelShow_finalUrl_returns organization model id options T)
    as E.
  split; [exact E|]. split.
  - unfold useModelShow_queryFn. rewrite E.
    unfold and_then, api_get, resolve.
    destruct (api _); reflexivity.
  - intros s p pp pp'.
    now rewrite E, (useModelShow_finalUrl_returns organization model id _ T).
Qed.

Lemma useModelShow_url_include_first_witness :
  useModelShow_finalUrl "my-org" "posts" (IdNum 1) post_with_author
  = Return "/my-org/posts/1?include=author&filter%5Bstatus%5D=active"
  /\ snd (useModelShow_queryFn accepting "my-org" "posts" (IdNum 1)
            post_with_author [])
     = [{| method := GET;
           url := "/my-org/posts/1?include=author&filter%5Bstatus%5D=active";
           body := None |}].
Proof.
  destruct (useModelShow_url_include_first accepting "my-org" "posts"
              (IdNum 1) post_with_author []) as [E [Q _]]; [discriminate|].
  split; [exact E|exact Q].
Defined.

(** C3 fails on the order: with both includes and filters, the include
    parameter comes before the filter parameters. *)
Lemma useModelShow_filters_not_first :
  useModelShow_finalUrl "my-org" "posts" (IdNum 1) post_with_author
  = Return "/my-org/posts/1?include=author&filter%5Bstatus%5D=active"
  /\ with_query "/my-org/posts/1" (resource_params_filters_first post_with_author)
     = "/my-org/posts/1?filter%5Bstatus%5D=active&include=author"
  /\ useModelShow_finalUrl "my-org" "posts" (IdNum 1) post_with_author
     <> Return (with_query "/my-org/posts/1"
                  (resource_params_filters_first post_with_author)).
Proof.
  split; [reflexivity|]. split; [reflexivity|]. discriminate.
Qed.

End UrlFacts.

(* ================================================================== *)
(** ** Nested operations *)
(* ================================================================== *)

Section BatchFacts.
Import Js UseModel BatchSpec Samples.

(** C1, as the code has it: whatever the operations hold, the mutation
    function hands one POST of [/<organization>/nested-operations] with the
    operations as they are to the transport, and settles with the
    transport's answer. *)
Theorem mutationFn_posts_batch_unchecked
  (api : Request -> Completion Response) (organization : string)
  (operations : list NestedOperation) (sent : list Request) :
  useNestedOperations_mutationFn api organization operations sent =
  (bind
     (api {| method := POST;
             url := "/" ++ organization ++ "/nested-operations";
             body := Some (Operations operations) |})
     (fun res => Return (response_data res)),
   (sent ++
    [{| method := POST;
        url := "/" ++ organization ++ "/nested-operations";
        body := Some (Operations operations) |}])%list).
Proof.
  unfold useNestedOperations_mutationFn, and_then, api_post.
  destruct (api _); reflexivity.
Qed.

(** The chained batch of the documentation holds no forward reference. *)
Example chained_batch_refers_backward :
  has_forward_reference chained_batch = false.
Proof. reflexivity. Qed.

(** C1 fails: a batch whose first operation refers to the second one is
    sent, and the call settles with the backend's answer. *)
Lemma forward_reference_is_sent :
  has_forward_reference forward_batch = true /\
  useNestedOperations_mutationFn accepting "acme" forward_batch [] =
  (Return (JArr []),
   [{| method := POST; url := "/acme/nested-operations";
       body := Some (Operations forward_batch) |}]).
Proof. split; reflexivity. Qed.

(** *** The models a batch invalidates *)

Lemma set_has_In (s : JsSet) (x : string) : set_has s x = true <-> In x s.
Proof.
  unfold set_has. rewrite existsb_exists. split.
  - intros [y [I E]]. apply String.eqb_eq in E. now subst.
  - intros I. exists x. split; [assumption|apply String.eqb_refl].
Qed.

Lemma set_add_In (s : JsSet) (x y : string) :
  In y (set_add s x) <-> In y s \/ y = x.
Proof.
  unfold set_add. destruct (set_has s x) eqn:H.
  - apply set_has_In in H. split; [now left|].
    intros [I| ->]; assumption.
  - rewrite in_app_iff. simpl. intuition.
Qed.

Lemma set_add_NoDup (s : JsSet) (x : string) :
  NoDup s -> NoDup (set_add s x).
Proof.
  intros N. unfold set_add. destruct (set_has s x) eqn:H; [assumption|].
  assert (~ In x s) as NI.
  { intros I. apply set_has_In in I. congruence. }
  clear H. induction N as [|y s Y N IH]; simpl.
  - constructor; [intros []|constructor].
  - constructor.
    + rewrite in_app_iff. simpl. intros [I|[E|[]]]; [now apply Y|].
      subst. apply NI. now left.
    + apply IH. intros I. apply NI. now right.
Qed.

Lemma fold_set_add (l : list string) (s : JsSet) :
  NoDup s ->
  NoDup (fold_left set_add l s)
  /\ forall y, In y (fold_left set_add l s) <-> In y s \/ In y l.
Proof.
  revert s. induction l as [|x l IH]; intros s N; simpl.
  - split; [assumption|]. intuition.
  - destruct (IH (set_add s x) (set_add_NoDup s x N)) as [N' I'].
    split; [assumption|]. intros y. rewrite I', set_add_In. intuition.
Qed.

Lemma count_pair (kind m x : string) :
  kind = "modelIndex" \/ kind = "modelShow" ->
  count_occ key_dec [["modelIndex"; x]; ["modelShow"; x]] [kind; m]
  = if string_dec x m then 1%nat else 0%nat.
Proof.
  intros K. destruct (string_dec x m) as [->|D].
  - destruct K as [-> | ->].
    + rewrite count_occ_cons_eq by reflexivity.
      rewrite count_occ_cons_neq by discriminate. reflexivity.
    + rewrite count_occ_cons_neq by discriminate.
      rewrite count_occ_cons_eq by reflexivity. reflexivity.
  - rewrite !count_occ_cons_neq by congruence. reflexivity.
Qed.

(** In what [onSuccess] invalidates, the key of a model and a kind occurs
    once when the model is in the set, and not at all otherwise. *)
Lemma count_invalidations (l : list string) (kind m : string) :
  NoDup l ->
  kind = "modelIndex" \/ kind = "modelShow" ->
  count_occ key_dec
    (flat_map (fun m => [["modelIndex"; m]; ["modelShow"; m]]) l) [kind; m]
  = if in_dec string_dec m l then 1%nat else 0%nat.
Proof.
  intros N K. induction l as [|x l IH]; [reflexivity|].
  inversion N as [|? ? X N']; subst. specialize (IH N').
  cbn [flat_map]. rewrite count_occ_app, IH, (count_pair kind m x K).
  destruct (string_dec x m) as [E|D];
    destruct (in_dec string_dec m l) as [I'|NI'];
    destruct (in_dec string_dec m (x :: l)) as [I|NI];
    try reflexivity; exfalso.
  - subst. contradiction.
  - subst. contradiction.
  - apply NI. now left.
  - apply NI. now right.
  - destruct I as [E|I]; [now apply D|now apply NI'].
Qed.

(** C8: the models marked after a successful batch are the distinct model
    names of the operations, and each of them has its list queries and its
    single-resource queries invalidated exactly once. *)
Theorem onSuccess_invalidates_each_model_once
  (operations : list NestedOperation) :
  NoDup (affectedModels operations)
  /\ (forall m, In m (affectedModels operations)
                <-> In m (map model operations))
  /\ (forall m,
        count_occ key_dec (useNestedOperations_onSuccess operations)
          ["modelIndex"; m]
        = if in_dec string_dec m (map model operations) then 1%nat else 0%nat)
  /\ (forall m,
        count_occ key_dec (useNestedOperations_onSuccess operations)
          ["modelShow"; m]
        = if in_dec string_dec m (map model operations) then 1%nat else 0%nat)
  /\ affectedModels blog_batch = ["blogs"; "posts"].
Proof.
  destruct (fold_set_add (map model operations) [] (NoDup_nil _)) as [N I].
  fold (new_Set (map model operations)) in N, I.
  fold (affectedModels operations) in N, I.
  assert (forall m, In m (affectedModels operations)
                    <-> In m (map model operations)) as I'.
  { intros m. rewrite I. simpl. intuition. }
  assert (forall kind m,
             kind = "modelIndex" \/ kind = "modelShow" ->
             count_occ key_dec (useNestedOperations_onSuccess operations)
               [kind; m]
             = if in_dec string_dec m (map model operations)
               then 1%nat else 0%nat) as C.
  { intros kind m K. unfold useNestedOperations_onSuccess.
    rewrite (count_invalidations _ kind m N K).
    destruct (in_dec string_dec m (affectedModels operations)) as [A|A];
      destruct (in_dec string_dec m (map model operations)) as [B|B];
      try reflexivity; exfalso.
    - apply B, I', A.
    - apply A, I', B. }
  repeat split; try assumption.
  - apply I'.
  - apply I'.
  - intros m. apply C. now left.
  - intros m. apply C. now right.
Qed.

End BatchFacts.

(* ================================================================== *)
(** ** Reading numbers *)
(* ================================================================== *)

Section ParseFacts.
Import Js Pagination Notions.

Lemma parseInt10_unfold (s : string) :
  parseInt10 s =
  match digits_from (snd (sign_split (trimStart s))) None with
  | None => NaN
  | Some z => to_double (fst (sign_split (trimStart s)) * z)
  end.
Proof.
  unfold parseInt10, sign_split.
  destruct (trimStart s) as [|c t]; [reflexivity|].
  destruct c as [[] [] [] [] [] [] [] []]; reflexivity.
Qed.

Lemma trimStart_spaces (ws s : string) :
  all_spaces ws = true -> trimStart (ws ++ s) = trimStart s.
Proof.
  induction ws as [|c ws IH]; simpl; [reflexivity|].
  intros H. apply andb_prop in H as [C W]. rewrite C. now apply IH.
Qed.

Lemma trimStart_append (s rest : string) :
  trimStart s <> "" -> trimStart (s ++ rest) = trimStart s ++ rest.
Proof.
  induction s as [|c s IH]; simpl; [congruence|].
  destruct (is_space c); [assumption|reflexivity].
Qed.

Lemma digits_from_append (d rest : string) (acc : option Z) :
  ends_digits rest = true ->
  digits_from (d ++ rest) acc = digits_from d acc.
Proof.
  intros E. revert acc. induction d as [|c d IH]; intros acc; simpl.
  - destruct rest as [|x rest]; [reflexivity|].
    simpl in *. apply negb_true_iff in E. now rewrite E.
  - destruct (is_digit c); [apply IH|reflexivity].
Qed.

Lemma sign_split_append (c : ascii) (t rest : string) :
  sign_split (String c t ++ rest) =
  (fst (sign_split (String c t)), snd (sign_split (String c t)) ++ rest).
Proof.
  destruct c as [[] [] [] [] [] [] [] []]; reflexivity.
Qed.

(** [parseInt] skips white space in front of the number. *)
Lemma parseInt10_leading_spaces (ws s : string) :
  all_spaces ws = true -> parseInt10 (ws ++ s) = parseInt10 s.
Proof.
  intros W. unfold parseInt10. now rewrite trimStart_spaces.
Qed.

(** [parseInt] reads a prefix: what follows the digits is ignored. *)
Lemma parseInt10_trailing (s rest : string) :
  parseInt10 s <> NaN ->
  ends_digits rest = true ->
  parseInt10 (s ++ rest) = parseInt10 s.
Proof.
  intros P E. rewrite !parseInt10_unfold in *.
  assert (trimStart s <> "") as T.
  { intros T. rewrite T in P. now apply P. }
  rewrite (trimStart_append s rest T).
  destruct (trimStart s) as [|c t]; [congruence|].
  rewrite sign_split_append. simpl fst. simpl snd.
  now rewrite digits_from_append.
Qed.

(** *** Printing and reading back *)

Lemma digits_of_uint_acc (d : Decimal.uint) (acc : positive) :
  digits_from (NilEmpty.string_of_uint d) (Some (Zpos acc))
  = Some (Zpos (Pos.of_uint_acc d acc)).
Proof.
  revert acc.
  induction d as [|d IH|d IH|d IH|d IH|d IH|d IH|d IH|d IH|d IH|d IH];
    intros acc; [reflexivity|..];
    cbn [NilEmpty.string_of_uint digits_from Pos.of_uint_acc];
    match goal with
    | |- context [is_digit ?c] => change (is_digit c) with true
    end; cbv iota; rewrite <- IH; do 2 f_equal;
    unfold digit_value, code; simpl N_of_ascii; lia.
Qed.

Lemma digits_of_uint_zero (d : Decimal.uint) :
  digits_from (NilEmpty.string_of_uint d) (Some 0)
  = Some (Z.of_N (Pos.of_uint d)).
Proof.
  induction d as [|d IH|d IH|d IH|d IH|d IH|d IH|d IH|d IH|d IH|d IH];
    [reflexivity|exact IH|..];
    cbn [NilEmpty.string_of_uint digits_from Pos.of_uint];
    match goal with
    | |- context [is_digit ?c] => change (is_digit c) with true
    end; cbv iota; cbn [Z.of_N]; rewrite <- digits_of_uint_acc;
    reflexivity.
Qed.

Lemma digits_of_uint (d : Decimal.uint) :
  d <> Decimal.Nil ->
  digits_from (NilEmpty.string_of_uint d) None
  = Some (Z.of_N (Pos.of_uint d)).
Proof.
  destruct d as [|d|d|d|d|d|d|d|d|d|d]; intros N;
    [congruence|exact (digits_of_uint_zero d)|..];
    cbn [NilEmpty.string_of_uint digits_from Pos.of_uint];
    match goal with
    | |- context [is_digit ?c] => change (is_digit c) with true
    end; cbv iota; cbn [Z.of_N]; rewrite <- digits_of_uint_acc;
    reflexivity.
Qed.

Lemma uint_string_head (d : Decimal.uint) :
  d <> Decimal.Nil ->
  trimStart (NilEmpty.string_of_uint d) = NilEmpty.string_of_uint d
  /\ sign_split (NilEmpty.string_of_uint d)
     = (1, NilEmpty.string_of_uint d).
Proof.
  destruct d; intros N; [congruence|..]; split; reflexivity.
Qed.

Lemma string_of_pos (p : positive) :
  NilZero.string_of_uint (Pos.to_uint p)
  = NilEmpty.string_of_uint (Pos.to_uint p).
Proof.
  pose proof (DecimalPos.Unsigned.to_uint_nonnil p) as N.
  destruct (Pos.to_uint p); [congruence|reflexivity..].
Qed.

Lemma parse_printed_pos (p : positive) :
  digits_from (NilEmpty.string_of_uint (Pos.to_uint p)) None = Some (Zpos p).
Proof.
  rewrite digits_of_uint by apply DecimalPos.Unsigned.to_uint_nonnil.
  now rewrite DecimalPos.Unsigned.of_to.
Qed.

(** Below 2^53 an integer is its own Number value. *)
Lemma to_double_exact (n : Z) : Z.abs n < 2 ^ 53 -> to_double n = Num n.
Proof.
  intros B. unfold to_double. apply Z.ltb_lt in B. now rewrite B.
Qed.

(** The decimal text of an integer reads back as the Number value of that
    integer. *)
Lemma parseInt10_string_of_Z (n : Z) :
  parseInt10 (string_of_Z n) = to_double n.
Proof.
  rewrite parseInt10_unfold. unfold string_of_Z.
  destruct n as [|p|p]; [reflexivity|..]; cbn [Z.to_int NilZero.string_of_int].
  - rewrite string_of_pos.
    destruct (uint_string_head (Pos.to_uint p)
                (DecimalPos.Unsigned.to_uint_nonnil p)) as [T S].
    rewrite T, S. cbn [fst snd]. rewrite parse_printed_pos.
    reflexivity.
  - rewrite string_of_pos.
    change (trimStart (String "-" ?s)) with (String "-" s).
    cbn [sign_split fst snd]. rewrite parse_printed_pos. reflexivity.
Qed.

End ParseFacts.
(* ================================================================== *)
(** ** More on the pagination metadata *)
(* ================================================================== *)

Section PaginationMore.
Import Js Pagination Notions Samples.

(** X1: in a returned object the current page, the last page and the page
    size are never zero: a zero (or unreadable) header gives way to the
    default. *)
Theorem meta_pages_never_zero (r : Response) (m : PaginationMeta) :
  extractPaginationFromHeaders r = Some m ->
  currentPage m <> 0 /\ lastPage m <> 0 /\ perPage m <> 0.
Proof.
  intros E.
  assert (forall f, default f <> 0 -> field f m <> 0) as H.
  { intros f D. rewrite (extract_fields r m E f). unfold or_default.
    destruct (parseInt (lookup r f)) as [|z|negative]; simpl.
    - congruence.
    - destruct (z =? 0) eqn:Z0; simpl; [congruence|].
      apply Z.eqb_neq in Z0. congruence.
    - discriminate. }
  repeat split.
  - apply (H CurrentPage). discriminate.
  - apply (H LastPage). discriminate.
  - apply (H PerPage). discriminate.
Qed.

Lemma meta_pages_never_zero_witness :
  currentPage abc_meta <> 0 /\ lastPage abc_meta <> 0
  /\ perPage abc_meta <> 0.
Proof.
  apply (meta_pages_never_zero abc_response abc_meta). reflexivity.
Defined.

Lemma parsed_is_nonempty (v : string) (n : Z) :
  parseInt10 v = Num n -> truthy_string v = true.
Proof. destruct v; [discriminate|reflexivity]. Qed.

(** What a header that reads as a non-zero integer gives its field. *)
Lemma parsed_header_field (r : Response) (f : Field) (v : string) (n : Z) :
  lookup r f = Some v ->
  parseInt10 v = Num n ->
  n <> 0 ->
  exists m, extractPaginationFromHeaders r = Some m /\ field f m = n.
Proof.
  intros L P N.
  destruct (extract_truthy r f) as [m E].
  { rewrite L. simpl. now apply (parsed_is_nonempty v n). }
  exists m. split; [assumption|].
  rewrite (extract_fields r m E f), L.
  cbn [parseInt]. rewrite P. unfold or_default, truthy_number.
  apply Z.eqb_neq in N. now rewrite N.
Qed.

(** X2: a header that carries the decimal text of a non-zero integer gives
    its field exactly that integer, as long as the integer is one a double
    holds exactly (below 2^53 in magnitude); beyond, the field is the
    nearest double. *)
Theorem printed_header_reads_back (r : Response) (f : Field) (n : Z) :
  n <> 0 ->
  Z.abs n < 2 ^ 53 ->
  lookup r f = Some (string_of_Z n) ->
  exists m, extractPaginationFromHeaders r = Some m /\ field f m = n.
Proof.
  intros N B L.
  apply (parsed_header_field r f (string_of_Z n) n L); [|assumption].
  rewrite parseInt10_string_of_Z. now apply to_double_exact.
Qed.

Lemma printed_header_reads_back_witness :
  exists m,
    extractPaginationFromHeaders {| headers := [("x-total", "250")] |}
    = Some m /\ field Total m = 250.
Proof.
  apply (printed_header_reads_back {| headers := [("x-total", "250")] |}
           Total 250); [lia|reflexivity|reflexivity].
Defined.

(** X3: white space before the number and any text after its digits are
    ignored: the field is the integer the digits denote. *)
Theorem header_number_amid_text (r : Response) (f : Field)
  (ws v rest : string) (n : Z) :
  all_spaces ws = true ->
  parseInt10 v = Num n ->
  n <> 0 ->
  ends_digits rest = true ->
  lookup r f = Some (ws ++ v ++ rest) ->
  exists m, extractPaginationFromHeaders r = Some m /\ field f m = n.
Proof.
  intros W P N E L.
  apply (parsed_header_field r f (ws ++ v ++ rest) n L); [|assumption].
  rewrite parseInt10_leading_spaces by assumption.
  rewrite parseInt10_trailing; [assumption| |assumption].
  rewrite P. discriminate.
Qed.

Lemma header_number_amid_text_witness :
  exists m,
    extractPaginationFromHeaders {| headers := [("x-per-page", " 25 items")] |}
    = Some m /\ field PerPage m = 25.
Proof.
  apply (header_number_amid_text
           {| headers := [("x-per-page", " 25 items")] |} PerPage
           " " "25" " items" 25); try reflexivity. lia.
Defined.

End PaginationMore.
(* ================================================================== *)
(** ** More on the list URL *)
(* ================================================================== *)

Section UrlMore.
Import Js UseModel UrlSpec Notions Samples.

Lemma append_nonempty_r (a b : string) : b <> "" -> a ++ b <> "".
Proof. destruct a; simpl; [auto|discriminate]. Qed.

Lemma append_longer (a b : string) : b <> "" -> a ++ b <> a.
Proof.
  intros B. induction a as [|c a IH]; simpl; [assumption|].
  intros [= E]. now apply IH.
Qed.

Lemma join_nonempty (sep x : string) (l : list string) :
  x <> "" -> join sep (x :: l) <> "".
Proof.
  intros X. destruct l; simpl; [assumption|].
  destruct x; [congruence|discriminate].
Qed.

(** The serialized parameters are empty only when there are none. *)
Lemma toString_empty (p : URLSearchParams) : toString p = "" <-> p = [].
Proof.
  split; [|intros ->; reflexivity].
  destruct p as [|[k v] p]; [reflexivity|].
  unfold toString. cbn [map fst snd]. intros E. exfalso.
  revert E. apply join_nonempty, append_nonempty_r. discriminate.
Qed.

(** Options with the same parameters give the same result. *)
Lemma buildQueryUrl_same_params (model organization : string)
  (o o' : ModelQueryOptions) :
  listing_params o = listing_params o' ->
  buildQueryUrl model organization o = buildQueryUrl model organization o'.
Proof.
  intros E. destruct (trim organization) as [|c t] eqn:T.
  - unfold buildQueryUrl. rewrite T. simpl.
    destruct (truthy_string organization); reflexivity.
  - assert (trim organization <> "") as N by (rewrite T; discriminate).
    rewrite !(buildQueryUrl_returns _ _ _ N). now rewrite E.
Qed.

(** X4: the URL is the bare path, without a question mark, exactly when no
    parameter is appended; otherwise it is the path, a question mark and
    the serialized parameters, which are not empty. *)
Theorem buildQueryUrl_bare_path (model organization : string)
  (options : ModelQueryOptions) :
  trim organization <> "" ->
  (buildQueryUrl model organization options
   = Return ("/" ++ trim organization ++ "/" ++ model)
   <-> listing_params options = [])
  /\ (listing_params options <> [] ->
      toString (listing_params options) <> ""
      /\ buildQueryUrl model organization options
         = Return ("/" ++ trim organization ++ "/" ++ model ++ "?"
                   ++ toString (listing_params options))).
Proof.
  intros T. rewrite (buildQueryUrl_returns _ _ _ T). unfold with_query.
  split; [split|].
  - destruct (truthy_string (toString (listing_params options))) eqn:Q.
    + intros [= E]. exfalso. revert E. apply append_longer. discriminate.
    + intros _. apply toString_empty.
      destruct (toString (listing_params options)); [reflexivity|discriminate].
  - intros ->. reflexivity.
  - intros N.
    assert (toString (listing_params options) <> "") as Q.
    { intros E. apply N. now apply toString_empty. }
    split; [exact Q|]. apply truthy_nonempty in Q. rewrite Q.
    now rewrite path_append.
Qed.

Lemma buildQueryUrl_bare_path_witness :
  (buildQueryUrl "users" "my-org" no_options = Return "/my-org/users"
   <-> listing_params no_options = [])
  /\ buildQueryUrl "posts" "acme" published_posts
     = Return ("/acme/posts?" ++ toString (listing_params published_posts)).
Proof.
  split.
  - apply (buildQueryUrl_bare_path "users" "my-org" no_options). discriminate.
  - apply (buildQueryUrl_bare_path "posts" "acme" published_posts);
      discriminate.
Defined.

Lemma listing_params_omit_falsy (o : ModelQueryOptions) :
  listing_params (omit_falsy o) = listing_params o.
Proof.
  unfold listing_params, omit_falsy, filter_group, per_page_group. simpl.
  destruct (filters o) as [[|]|], (includes o) as [[|]|],
    (sort o) as [[|]|], (fields o) as [[|]|], (search o) as [[|]|],
    (page o) as [[| |]|], (perPage o) as [[| |]|],
    (per_page o) as [[| |]|]; reflexivity.
Qed.

(** X5: a falsy option value -- an empty sort or search string, page 0,
    perPage 0, an empty includes or fields array, an empty filter object --
    is treated like an option that was left out. *)
Theorem buildQueryUrl_falsy_is_omitted (model organization : string)
  (options : ModelQueryOptions) :
  buildQueryUrl model organization (omit_falsy options)
  = buildQueryUrl model organization options.
Proof. apply buildQueryUrl_same_params, listing_params_omit_falsy. Qed.

(** X6: [per_page] is an alias of [perPage]: either spelling alone gives the
    same URL, and a non-zero [perPage] makes [per_page] irrelevant. *)
Theorem buildQueryUrl_per_page_alias (model organization : string)
  (options : ModelQueryOptions) (n : Z) :
  buildQueryUrl model organization (with_per_page options None (Some n))
  = buildQueryUrl model organization (with_per_page options (Some n) None)
  /\ (n <> 0 -> forall other,
       buildQueryUrl model organization (with_per_page options (Some n) other)
       = buildQueryUrl model organization
           (with_per_page options (Some n) None)).
Proof.
  split.
  - apply buildQueryUrl_same_params.
    unfold listing_params, per_page_group, filter_group. simpl.
    destruct (n =? 0); reflexivity.
  - intros N other. apply buildQueryUrl_same_params.
    unfold listing_params, per_page_group, filter_group. simpl.
    apply Z.eqb_neq in N. rewrite N. reflexivity.
Qed.

Lemma buildQueryUrl_per_page_alias_witness :
  buildQueryUrl "posts" "acme" (with_per_page published_posts None (Some 20))
  = buildQueryUrl "posts" "acme" (with_per_page published_posts (Some 20) None)
  /\ buildQueryUrl "posts" "acme"
       (with_per_page published_posts (Some 20) (Some 50))
     = buildQueryUrl "posts" "acme"
         (with_per_page published_posts (Some 20) None).
Proof.
  destruct (buildQueryUrl_per_page_alias "posts" "acme" published_posts 20)
    as [A P].
  split; [exact A|]. apply P. lia.
Defined.

(** *** Separators in the query string *)

Lemma count_char_append (x : ascii) (a b : string) :
  count_char x (a ++ b) = (count_char x a + count_char x b)%nat.
Proof.
  induction a as [|c a IH]; simpl; [reflexivity|]. rewrite IH. lia.
Qed.

(** An encoded character is never one of the separators. *)
Lemma encode_char_no_separator (c : ascii) :
  count_char "=" (encode_char c) = 0%nat
  /\ count_char "&" (encode_char c) = 0%nat
  /\ count_char "?" (encode_char c) = 0%nat.
Proof.
  destruct c as [[] [] [] [] [] [] [] []]; vm_compute; repeat split.
Qed.

Lemma urlencode_no_separator (s : string) :
  count_char "=" (urlencode s) = 0%nat
  /\ count_char "&" (urlencode s) = 0%nat
  /\ count_char "?" (urlencode s) = 0%nat.
Proof.
  induction s as [|c s [E [A Q]]]; simpl; [repeat split|].
  rewrite !count_char_append, E, A, Q.
  destruct (encode_char_no_separator c) as [E' [A' Q']].
  rewrite E', A', Q'. repeat split.
Qed.

Lemma join_cons (sep x y : string) (l : list string) :
  join sep (x :: y :: l) = x ++ sep ++ join sep (y :: l).
Proof. reflexivity. Qed.

Lemma toString_separators (p : URLSearchParams) :
  count_char "=" (toString p) = List.length p
  /\ count_char "&" (toString p) = pred (List.length p)
  /\ count_char "?" (toString p) = 0%nat.
Proof.
  unfold toString. induction p as [|[k v] p [E [A Q]]]; [repeat split|].
  cbn [map fst snd List.length].
  destruct (urlencode_no_separator k) as [Ek [Ak Qk]].
  destruct (urlencode_no_separator v) as [Ev [Av Qv]].
  assert (count_char "=" (urlencode k ++ "=" ++ urlencode v) = 1%nat
          /\ count_char "&" (urlencode k ++ "=" ++ urlencode v) = 0%nat
          /\ count_char "?" (urlencode k ++ "=" ++ urlencode v) = 0%nat)
    as [E1 [A1 Q1]].
  { rewrite !count_char_append, Ek, Ak, Qk, Ev, Av, Qv. repeat split. }
  destruct p as [|kv p].
  - cbn [map join List.length pred]. repeat split; assumption.
  - set (x := urlencode k ++ "=" ++ urlencode v) in *.
    set (f := fun nv : string * string =>
                urlencode (fst nv) ++ "=" ++ urlencode (snd nv)) in *.
    change (map f (kv :: p)) with (f kv :: map f p) in *.
    rewrite join_cons.
    set (J := join "&" (f kv :: map f p)) in *.
    rewrite !count_char_append, E1, A1, Q1, E, A, Q.
    cbn [List.length pred count_char]. repeat split.
Qed.

(** X7: whatever the filter keys and the values contain, what follows the
    path holds one [=] per parameter, one [&] between two parameters and
    one [?] in front when there is a parameter: a value cannot add or split
    parameters. *)
Theorem buildQueryUrl_separators (model organization : string)
  (options : ModelQueryOptions) :
  trim organization <> "" ->
  exists rest,
    buildQueryUrl model organization options
    = Return ("/" ++ trim organization ++ "/" ++ model ++ rest)
    /\ count_char "=" rest = List.length (listing_params options)
    /\ count_char "&" rest = pred (List.length (listing_params options))
    /\ count_char "?" rest = Nat.min 1 (List.length (listing_params options)).
Proof.
  intros T. rewrite (buildQueryUrl_returns _ _ _ T). unfold with_query.
  destruct (toString_separators (listing_params options)) as [E [A Q]].
  destruct (truthy_string (toString (listing_params options))) eqn:N.
  - exists ("?" ++ toString (listing_params options)).
    split; [now rewrite path_append|].
    change ("?" ++ ?s) with (String "?" s). cbn [count_char].
    rewrite E, A, Q. repeat split.
    destruct (listing_params options); [discriminate|reflexivity].
  - exists "". split; [now rewrite <- path_append, append_empty|].
    assert (listing_params options = []) as ->.
    { apply toString_empty.
      destruct (toString (listing_params options));
        [reflexivity|discriminate]. }
    repeat split.
Qed.

Lemma buildQueryUrl_separators_witness :
  exists rest,
    buildQueryUrl "posts" "acme"
      {| filters := Some [("a&b=c", SStr "x=1&y=2?")]; includes := None;
         sort := None; fields := None; search := None; page := None;
         perPage := None; per_page := None |}
    = Return ("/acme/posts" ++ rest)
    /\ count_char "=" rest = 1%nat
    /\ count_char "&" rest = 0%nat
    /\ count_char "?" rest = 1%nat.
Proof.
  apply (buildQueryUrl_separators "posts" "acme"
           {| filters := Some [("a&b=c", SStr "x=1&y=2?")]; includes := None;
              sort := None; fields := None; search := None; page := None;
              perPage := None; per_page := None |}).
  discriminate.
Defined.

(** *** Trimming *)

Lemma trimStart_head (s : string) :
  trimStart s = ""
  \/ exists c t, trimStart s = String c t /\ is_space c = false.
Proof.
  induction s as [|c s IH]; simpl; [now left|].
  destruct (is_space c) eqn:C; [assumption|].
  right. now exists c, s.
Qed.

Lemma trimEnd_idempotent (s : string) : trimEnd (trimEnd s) = trimEnd s.
Proof.
  induction s as [|c s IH]; simpl; [reflexivity|].
  destruct (trimEnd s) as [|x r] eqn:E.
  - destruct (is_space c) eqn:C; simpl; [reflexivity|now rewrite C].
  - cbn [trimEnd] in *. fold trimEnd in *.
    change (trimEnd (String c (String x r)))
      with (match trimEnd (String x r) with
            | EmptyString =>
                if is_space c then EmptyString else String c EmptyString
            | q => String c q
            end).
    now rewrite IH.
Qed.

Lemma trimStart_trimEnd (c : ascii) (t : string) :
  is_space c = false ->
  trimStart (trimEnd (String c t)) = trimEnd (String c t).
Proof.
  intros C. simpl. destruct (trimEnd t); rewrite ?C; simpl; now rewrite C.
Qed.

Lemma trim_idempotent (s : string) : trim (trim s) = trim s.
Proof.
  unfold trim. destruct (trimStart_head s) as [E|[c [t [E C]]]]; rewrite E.
  - reflexivity.
  - rewrite (trimStart_trimEnd c t C). apply trimEnd_idempotent.
Qed.

(** X8: the builder sees the organization only through its trimmed form:
    white space around a usable organization changes nothing. *)
Theorem buildQueryUrl_trims_organization (model organization : string)
  (options : ModelQueryOptions) :
  trim organization <> "" ->
  buildQueryUrl model (trim organization) options
  = buildQueryUrl model organization options.
Proof.
  intros T.
  rewrite (buildQueryUrl_returns model organization options T).
  rewrite (buildQueryUrl_returns model (trim organization) options);
    now rewrite trim_idempotent.
Qed.

Lemma buildQueryUrl_trims_organization_witness :
  buildQueryUrl "posts" (trim "  acme ") published_posts
  = buildQueryUrl "posts" "  acme " published_posts.
Proof.
  apply (buildQueryUrl_trims_organization "posts" "  acme " published_posts).
  discriminate.
Defined.

End UrlMore.
(* ================================================================== *)
(** ** The hooks of useModel.js *)
(* ================================================================== *)

Section HookFacts.
Import Js UseModel UrlSpec Notions ModelHooks Writes Samples.

Lemma send_runs_once (api : Api) (v : Verb) (u : string) (b : option Json)
  (calls : list Call) :
  send api v u b calls =
  (bind (api {| verb := v; target := u; payload := b |})
     (fun res => Return (reply_data res)),
   (calls ++ [{| verb := v; target := u; payload := b |}])%list).
Proof.
  unfold send, then_, request, ret. destruct (api _); reflexivity.
Qed.

Lemma get_page_runs_once (api : Api) (u : string) (calls : list Call) :
  snd (get_page api u calls)
  = (calls ++ [{| verb := Get; target := u; payload := None |}])%list.
Proof.
  unfold get_page, then_, request, ret. destruct (api _); reflexivity.
Qed.

Lemma trashed_url (organization model : string) (options : ModelQueryOptions) :
  useModelTrashed_finalUrl organization model options
  = with_query ("/" ++ trim organization ++ "/" ++ model ++ "/trashed")
      (listing_params options).
Proof.
  unfold useModelTrashed_finalUrl. cbv zeta.
  rewrite per_page_step, number_step, string_step, joined_step, string_step,
    joined_step, filters_step.
  unfold listing_params, with_query. rewrite !app_nil_l.
  repeat rewrite <- app_assoc. reflexivity.
Qed.

(** X9: the list of trashed records of a model is requested exactly like
    the list of the model named [<model>/trashed]: same URL grammar, same
    handling of the response. *)
Theorem trashed_is_index_of_trashed_path (api : Api)
  (organization model : string)
  (options : ModelQueryOptions) :
  trim organization <> "" ->
  exists kI kT fn,
    useModelIndex api (Some organization) (model ++ "/trashed") options
    = Return (UseQuery kI fn true)
    /\ useModelTrashed api (Some organization) model options
       = UseQuery kT fn true.
Proof.
  intros T.
  assert (truthy_string organization = true) as O.
  { apply truthy_nonempty. intros ->. now apply T. }
  unfold useModelIndex, useModelTrashed. cbn [truthy_opt_string slug_text].
  rewrite O. cbn [negb]. rewrite (buildQueryUrl_returns _ _ _ T).
  cbn [bind]. rewrite trashed_url.
  do 3 eexists. split; reflexivity.
Qed.

Lemma trashed_is_index_of_trashed_path_witness :
  exists kI kT fn,
    useModelIndex quiet (Some "my-org") ("users" ++ "/trashed") no_options
    = Return (UseQuery kI fn true)
    /\ useModelTrashed quiet (Some "my-org") "users" no_options
       = UseQuery kT fn true.
Proof.
  apply (trashed_is_index_of_trashed_path quiet "my-org" "users" no_options).
  discriminate.
Defined.

Lemma with_query_suffix (u : string) (p : URLSearchParams) :
  exists rest, with_query u p = u ++ rest.
Proof.
  unfold with_query. destruct (truthy_string (toString p)).
  - now exists ("?" ++ toString p).
  - exists "". now rewrite append_empty.
Qed.

Lemma audit_url (organization model : string) (i : ResourceId)
  (options : ModelQueryOptions) :
  useModelAudit_finalUrl organization model i options
  = with_query (resource_path organization model i ++ "/audit")
      (number_group "page" (page options) ++ per_page_group options)%list.
Proof.
  unfold useModelAudit_finalUrl. cbv zeta.
  rewrite per_page_step, number_step. rewrite app_nil_l.
  unfold with_query, resource_path.
  now rewrite path_append, !append_assoc.
Qed.

(** X10: an organization that is not empty but trims to nothing passes the
    guard of every read hook, and then the hooks part ways: [useModelIndex]
    throws while rendering, [useModelShow] hands over a disabled query, and
    [useModelTrashed] and [useModelAudit] hand over enabled queries that
    request a path starting with two slashes. *)
Theorem blank_organization_splits_read_hooks (api : Api)
  (organization model : string)
  (i : ResourceId) (options : ModelQueryOptions) :
  organization <> "" ->
  trim organization = "" ->
  truthy_id i = true ->
  useModelIndex api (Some organization) model options
  = Throw (Error "Organization slug is required and must be a non-empty string")
  /\ (exists k fn,
        useModelShow api (Some organization) model (Some i) options
        = UseQuery k fn false)
  /\ (exists k fn,
        useModelTrashed api (Some organization) model options
        = UseQuery k fn true
        /\ forall calls, exists rest,
             snd (fn calls)
             = (calls ++ [{| verb := Get;
                             target := "//" ++ model ++ "/trashed" ++ rest;
                             payload := None |}])%list)
  /\ (exists k fn,
        useModelAudit api (Some organization) model (Some i) options
        = UseQuery k fn true
        /\ forall calls, exists rest,
             snd (fn calls)
             = (calls ++ [{| verb := Get;
                             target := "//" ++ model ++ "/" ++ id_to_string i
                                       ++ "/audit" ++ rest;
                             payload := None |}])%list).
Proof.
  intros N T I.
  assert (truthy_string organization = true) as O
    by now apply truthy_nonempty.
  unfold useModelIndex, useModelShow, useModelTrashed, useModelAudit.
  cbn [truthy_opt_string slug_text]. rewrite O, I. cbn [negb andb].
  repeat split.
  - unfold buildQueryUrl. rewrite O, T. reflexivity.
  - rewrite T. do 2 eexists. reflexivity.
  - do 2 eexists. split; [reflexivity|]. intros calls.
    rewrite get_page_runs_once, trashed_url, T.
    destruct (with_query_suffix ("/" ++ "" ++ "/" ++ model ++ "/trashed")
                (listing_params options)) as [rest ->].
    exists rest. simpl. now rewrite !append_assoc.
  - do 2 eexists. split; [reflexivity|]. intros calls.
    rewrite get_page_runs_once, audit_url. unfold resource_path. rewrite T.
    match goal with
    | |- context [with_query ?u ?p] =>
        destruct (with_query_suffix u p) as [rest ->]
    end.
    exists rest. simpl. now rewrite !append_assoc.
Qed.

Lemma blank_organization_splits_read_hooks_witness :
  useModelIndex quiet (Some "  ") "users" no_options
  = Throw (Error "Organization slug is required and must be a non-empty string")
  /\ (exists k fn,
        useModelShow quiet (Some "  ") "users" (Some (IdNum 7)) no_options
        = UseQuery k fn false)
  /\ (exists k fn,
        useModelTrashed quiet (Some "  ") "users" no_options
        = UseQuery k fn true
        /\ forall calls, exists rest,
             snd (fn calls)
             = (calls ++ [{| verb := Get;
                             target := "//" ++ "users" ++ "/trashed" ++ rest;
                             payload := None |}])%list)
  /\ (exists k fn,
        useModelAudit quiet (Some "  ") "users" (Some (IdNum 7)) no_options
        = UseQuery k fn true
        /\ forall calls, exists rest,
             snd (fn calls)
             = (calls ++ [{| verb := Get;
                             target := "//" ++ "users" ++ "/"
                                       ++ id_to_string (IdNum 7)
                                       ++ "/audit" ++ rest;
                             payload := None |}])%list).
Proof.
  apply (blank_organization_splits_read_hooks quiet "  " "users" (IdNum 7)
           no_options); [discriminate|reflexivity|reflexivity].
Defined.

(** X11: an enabled query of [useModelShow] never fails on its own: its
    query function makes exactly one GET and settles with the body of the
    response, or with the rejection of the transport. *)
Theorem enabled_show_query_requests_once (api : Api)
  (organization : option string)
  (model : string) (id : option ResourceId) (options : ModelQueryOptions)
  (k : list KeyPart) (fn : Task Json) :
  useModelShow api organization model id options = UseQuery k fn true ->
  exists u,
    forall calls,
      fn calls
      = (bind (api {| verb := Get; target := u; payload := None |})
           (fun res => Return (reply_data res)),
         (calls ++ [{| verb := Get; target := u; payload := None |}])%list).
Proof.
  unfold useModelShow.
  destruct (negb (truthy_opt_string organization)); [discriminate|].
  destruct id as [i|]; [|discriminate].
  destruct (negb (truthy_id i)); [discriminate|].
  intros [= _ <- E].
  apply andb_prop in E as [_ E]. apply truthy_nonempty in E.
  rewrite (useModelShow_finalUrl_returns _ model i options E).
  eexists. intros calls. apply send_runs_once.
Qed.

Lemma enabled_show_query_requests_once_witness :
  exists u,
    forall calls,
      send quiet Get "/my-org/users/42" None calls
      = (bind (quiet {| verb := Get; target := u; payload := None |})
           (fun res => Return (reply_data res)),
         (calls ++ [{| verb := Get; target := u; payload := None |}])%list).
Proof.
  apply (enabled_show_query_requests_once quiet (Some "my-org") "users"
           (Some (IdNum 42)) no_options
           [KStr "modelShow"; KStr "users"; KId (IdNum 42); KStr "my-org";
            KOptions no_options]).
  reflexivity.
Defined.

(** X12: the audit URL carries the page and the page size only: filters,
    includes, sort, fields and search do not reach it. *)
Theorem audit_url_takes_pagination_only (organization model : string)
  (i : ResourceId) (options : ModelQueryOptions)
  (f : option (list (string * Scalar))) (inc fl : option (list string))
  (s se : option string) :
  useModelAudit_finalUrl organization model i
    {| filters := f; includes := inc; sort := s; fields := fl; search := se;
       page := page options; perPage := perPage options;
       per_page := per_page options |}
  = useModelAudit_finalUrl organization model i options
  /\ useModelAudit_finalUrl organization model i options
     = with_query (resource_path organization model i ++ "/audit")
         (number_group "page" (page options) ++ per_page_group options)%list.
Proof.
  split; [|apply audit_url]. now rewrite !audit_url.
Qed.

(** *** Writing *)

Lemma length_append (a b : string) :
  String.length (a ++ b) = (String.length a + String.length b)%nat.
Proof. induction a as [|c a IH]; simpl; [reflexivity|now rewrite IH]. Qed.

Lemma append_cancel_r (a b r : string) : a ++ r = b ++ r -> a = b.
Proof.
  revert b. induction a as [|c a IH]; intros [|c' b] E; simpl in E.
  - reflexivity.
  - apply (f_equal String.length) in E. simpl in E.
    rewrite length_append in E. lia.
  - apply (f_equal String.length) in E. simpl in E.
    rewrite length_append in E. lia.
  - injection E as -> E. f_equal. now apply IH.
Qed.

(** X13: [useModelUpdate] puts the organization into the path as it is,
    while [useModelShow] trims it: the update of a record goes to the path
    the record is read from exactly when the organization has no white
    space around it. *)
Theorem update_path_is_read_path_iff_trimmed (api : Api)
  (organization model : string) (i : ResourceId) (data : option Json)
  (m : Mutation (option ResourceId * option Json)) :
  useModelUpdate api (Some organization) model = Return m ->
  exists w,
    (forall calls,
        snd (mutationFn m (Some i, data) calls)
        = (calls ++ [{| verb := Put; target := w; payload := data |}])%list)
    /\ (useModelShow_finalUrl organization model i no_options = Return w
        <-> trim organization = organization).
Proof.
  unfold useModelUpdate. cbn [truthy_opt_string slug_text].
  destruct (truthy_string organization) eqn:O; [|discriminate].
  cbn [negb]. intros [= <-]. cbn [mutationFn fst snd id_text].
  eexists. split.
  - intros calls. rewrite send_runs_once. reflexivity.
  - destruct (trim organization) as [|c t] eqn:T.
    + unfold useModelShow_finalUrl. rewrite T. cbn [truthy_string negb].
      split; [discriminate|]. intros <-. discriminate.
    + assert (trim organization <> "") as N by (rewrite T; discriminate).
      rewrite (useModelShow_finalUrl_returns _ model i no_options N).
      unfold with_query, resource_path. cbn [resource_params no_options
        joined_group filter_group string_group includes filters sort fields
        app toString map join truthy_string].
      rewrite T. split.
      * intros [= E].
        apply (append_cancel_r _ _ ("/" ++ model ++ "/" ++ id_to_string i)).
        simpl. simpl in E. exact E.
      * intros <-. reflexivity.
Qed.

Lemma update_path_is_read_path_iff_trimmed_witness :
  exists w,
    (forall calls,
        snd (send quiet Put ("/" ++ " acme" ++ "/" ++ "posts" ++ "/" ++ "7")
               None calls)
        = (calls ++ [{| verb := Put; target := w; payload := None |}])%list)
    /\ (useModelShow_finalUrl " acme" "posts" (IdNum 7) no_options = Return w
        <-> trim " acme" = " acme").
Proof.
  apply (update_path_is_read_path_iff_trimmed quiet " acme" "posts"
           (IdNum 7) None
           {| mutationFn := fun v =>
                send quiet Put
                  ("/" ++ " acme" ++ "/" ++ "posts" ++ "/" ++ id_text (fst v))
                  (snd v);
              onSuccess := [["modelIndex"; "posts"]; ["modelShow"; "posts"]] |}).
  reflexivity.
Defined.

(** X14: the hooks that write by identifier do not look at the identifier:
    whatever it is -- [undefined], [0] or the empty string included, which
    [useModelShow] answers with an error and no request -- exactly one
    request is made, with the identifier's text as path segment. *)
Theorem write_hooks_do_not_check_id (api : Api) (organization model : string)
  (id : option ResourceId) (options : ModelQueryOptions) :
  truthy_string organization = true ->
  (truthy_opt_id id = false ->
   useModelShow api (Some organization) model id options
   = ErrorState (Error "ID is required for useModelShow"))
  /\ (exists m,
        useModelDelete api (Some organization) model = Return m
        /\ forall calls,
             snd (mutationFn m id calls)
             = (calls ++
                [{| verb := Delete;
                    target := "/" ++ organization ++ "/" ++ model ++ "/"
                              ++ id_text id;
                    payload := None |}])%list)
  /\ (exists m,
        useModelRestore api (Some organization) model = Return m
        /\ forall calls,
             snd (mutationFn m id calls)
             = (calls ++
                [{| verb := Post;
                    target := "/" ++ organization ++ "/" ++ model ++ "/"
                              ++ id_text id ++ "/restore";
                    payload := None |}])%list)
  /\ (exists m,
        useModelForceDelete api (Some organization) model = Return m
        /\ forall calls,
             snd (mutationFn m id calls)
             = (calls ++
                [{| verb := Delete;
                    target := "/" ++ organization ++ "/" ++ model ++ "/"
                              ++ id_text id ++ "/force-delete";
                    payload := None |}])%list).
Proof.
  intros O.
  unfold useModelShow, useModelDelete, useModelRestore, useModelForceDelete.
  cbn [truthy_opt_string slug_text]. rewrite O. cbn [negb].
  split; [|repeat split].
  - destruct id as [i|]; [|reflexivity]. cbn [truthy_opt_id].
    intros ->. reflexivity.
  - eexists. split; [reflexivity|]. intros calls.
    cbn [mutationFn]. now rewrite send_runs_once.
  - eexists. split; [reflexivity|]. intros calls.
    cbn [mutationFn]. now rewrite send_runs_once.
  - eexists. split; [reflexivity|]. intros calls.
    cbn [mutationFn]. now rewrite send_runs_once.
Qed.

Lemma write_hooks_do_not_check_id_witness :
  exists m,
    useModelDelete quiet (Some "my-org") "users" = Return m
    /\ forall calls,
         snd (mutationFn m None calls)
         = (calls ++
            [{| verb := Delete; target := "/my-org/users/undefined";
                payload := None |}])%list.
Proof.
  destruct (write_hooks_do_not_check_id quiet "my-org" "users" None no_options)
    as [_ [D _]]; [reflexivity|]. exact D.
Defined.

(** *** Invalidation *)

Lemma key_matches_two (kind model kind' model' : string)
  (rest : list KeyPart) :
  key_matches [kind; model] (KStr kind' :: KStr model' :: rest)
  = String.eqb kind kind' && String.eqb model model'.
Proof. simpl. now rewrite andb_true_r. Qed.

(** X15: which cached queries a successful write reaches.  Store, update,
    soft delete and restore refresh the lists and the single records of
    their model, in every organization and for every option set and
    identifier; restore and force delete refresh the lists of trashed
    records; a soft delete does not, a force delete refreshes nothing else,
    and no write refreshes an audit trail or a query of another model. *)
Theorem invalidation_reach (api : Api) (h : WriteHook)
  (organization : option string) (model : string)
  (organization' : option string) (model' : string)
  (id : option ResourceId) (options : ModelQueryOptions) :
  truthy_opt_string organization = true ->
  (forall k,
      index_key (useModelIndex api organization' model' options) = Some k ->
      invalidates (invalidated_by api h organization model) k
      = refreshes_live h && String.eqb model model')
  /\ (forall k,
        key_of (useModelShow api organization' model' id options) = Some k ->
        invalidates (invalidated_by api h organization model) k
        = refreshes_live h && String.eqb model model')
  /\ (forall k,
        key_of (useModelTrashed api organization' model' options) = Some k ->
        invalidates (invalidated_by api h organization model) k
        = refreshes_trash h && String.eqb model model')
  /\ (forall k,
        key_of (useModelAudit api organization' model' id options) = Some k ->
        invalidates (invalidated_by api h organization model) k = false).
Proof.
  intros O.
  assert (forall kind rest,
             invalidates (invalidated_by api h organization model)
               (KStr kind :: KStr model' :: rest)
             = match kind with
               | "modelIndex" | "modelShow" => refreshes_live h
               | "modelTrashed" => refreshes_trash h
               | _ => false
               end && String.eqb model model'
             \/ (kind <> "modelIndex" /\ kind <> "modelShow"
                 /\ kind <> "modelTrashed" /\ kind <> "modelAudit")) as M.
  { intros kind rest.
    destruct (String.eqb kind "modelIndex") eqn:E1;
      [apply String.eqb_eq in E1; subst|apply String.eqb_neq in E1];
    [|destruct (String.eqb kind "modelShow") eqn:E2;
      [apply String.eqb_eq in E2; subst|apply String.eqb_neq in E2];
     [|destruct (String.eqb kind "modelTrashed") eqn:E3;
       [apply String.eqb_eq in E3; subst|apply String.eqb_neq in E3];
      [|destruct (String.eqb kind "modelAudit") eqn:E4;
        [apply String.eqb_eq in E4; subst|apply String.eqb_neq in E4;
         now right]]]];
    left; unfold invalidated_by, useModelStore, useModelUpdate,
      useModelDelete, useModelRestore, useModelForceDelete;
    rewrite O; cbn [negb success_keys onSuccess];
    destruct h; cbn [invalidates existsb refreshes_live refreshes_trash];
    rewrite ?key_matches_two; cbn [String.eqb Ascii.eqb Bool.eqb andb orb];
    destruct (String.eqb model model'); reflexivity. }
  repeat split; intros k.
  - unfold useModelIndex.
    destruct (negb (truthy_opt_string organization')); [discriminate|].
    destruct (buildQueryUrl _ _ _); [|discriminate].
    cbn [bind index_key key_of]. intros [= <-].
    destruct (M "modelIndex"
                [KStr (slug_text organization'); KOptions options])
      as [E|[N _]]; [exact E|congruence].
  - unfold useModelShow.
    destruct (negb (truthy_opt_string organization')); [discriminate|].
    destruct id as [i|]; [|discriminate].
    destruct (negb (truthy_id i)); [discriminate|].
    cbn [key_of]. intros [= <-].
    destruct (M "modelShow"
                [KId i; KStr (slug_text organization'); KOptions options])
      as [E|[_ [N _]]]; [exact E|congruence].
  - unfold useModelTrashed.
    destruct (negb (truthy_opt_string organization')); [discriminate|].
    cbn [key_of]. intros [= <-].
    destruct (M "modelTrashed"
                [KStr (slug_text organization'); KOptions options])
      as [E|[_ [_ [N _]]]]; [exact E|congruence].
  - unfold useModelAudit.
    destruct (negb (truthy_opt_string organization')); [discriminate|].
    destruct id as [i|]; [|discriminate].
    destruct (negb (truthy_id i)); [discriminate|].
    cbn [key_of]. intros [= <-].
    destruct (M "modelAudit"
                [KId i; KStr (slug_text organization'); KOptions options])
      as [E|[_ [_ [_ N]]]]; [|congruence].
    rewrite E. reflexivity.
Qed.

Lemma invalidation_reach_witness :
  invalidates (invalidated_by quiet SoftDelete (Some "my-org") "users")
    [KStr "modelTrashed"; KStr "users"; KStr "other-org"; KOptions no_options]
  = false
  /\ invalidates (invalidated_by quiet SoftDelete (Some "my-org") "users")
       [KStr "modelIndex"; KStr "users"; KStr "other-org";
        KOptions no_options]
     = true.
Proof.
  destruct (invalidation_reach quiet SoftDelete (Some "my-org") "users"
              (Some "other-org") "users" None no_options eq_refl)
    as [I [_ [T _]]].
  split; [apply T|apply I]; reflexivity.
Defined.

Lemma existsb_same_members {A} (f : A -> bool) (l l' : list A) :
  (forall x, In x l <-> In x l') -> existsb f l = existsb f l'.
Proof.
  intros H. apply eq_true_iff_eq. rewrite !existsb_exists.
  split; intros [x [I F]]; exists x; split; try assumption; now apply H.
Qed.

Lemma nested_keys_match (kind model' : string) (rest : list KeyPart)
  (l : list string) :
  existsb (fun g => key_matches g (KStr kind :: KStr model' :: rest))
    (flat_map (fun m => [["modelIndex"; m]; ["modelShow"; m]]) l)
  = (String.eqb "modelIndex" kind || String.eqb "modelShow" kind)
    && existsb (String.eqb model') l.
Proof.
  induction l as [|m l IH]; cbn [flat_map existsb app].
  - now rewrite andb_false_r.
  - rewrite IH, !key_matches_two, (String.eqb_sym model' m).
    destruct (String.eqb "modelIndex" kind), (String.eqb "modelShow" kind),
      (String.eqb m model'), (existsb (String.eqb model') l); reflexivity.
Qed.

(** X16: which cached queries a successful batch reaches: the lists and
    the single records of every model an operation names, in every
    organization and for every option set and identifier; never a list of
    trashed records or an audit trail, also when the batch deletes. *)
Theorem nested_operations_reach (api : Api)
  (operations : list NestedOperation) (organization' : option string)
  (model' : string) (id : option ResourceId) (options : ModelQueryOptions) :
  (forall k,
      index_key (useModelIndex api organization' model' options) = Some k ->
      invalidates (useNestedOperations_onSuccess operations) k
      = existsb (String.eqb model') (map model operations))
  /\ (forall k,
        key_of (useModelShow api organization' model' id options) = Some k ->
        invalidates (useNestedOperations_onSuccess operations) k
        = existsb (String.eqb model') (map model operations))
  /\ (forall k,
        key_of (useModelTrashed api organization' model' options) = Some k ->
        invalidates (useNestedOperations_onSuccess operations) k = false)
  /\ (forall k,
        key_of (useModelAudit api organization' model' id options) = Some k ->
        invalidates (useNestedOperations_onSuccess operations) k = false).
Proof.
  assert (forall kind rest,
             invalidates (useNestedOperations_onSuccess operations)
               (KStr kind :: KStr model' :: rest)
             = (String.eqb "modelIndex" kind || String.eqb "modelShow" kind)
               && existsb (String.eqb model') (map model operations)) as M.
  { intros kind rest. unfold invalidates, useNestedOperations_onSuccess.
    rewrite nested_keys_match. f_equal.
    apply existsb_same_members. intros x.
    unfold affectedModels, new_Set.
    destruct (fold_set_add (map model operations) [] (NoDup_nil _))
      as [_ I].
    rewrite I. simpl. intuition. }
  repeat split; intros k.
  - unfold useModelIndex.
    destruct (negb (truthy_opt_string organization')); [discriminate|].
    destruct (buildQueryUrl _ _ _); [|discriminate].
    cbn [bind index_key key_of]. intros [= <-]. now rewrite M.
  - unfold useModelShow.
    destruct (negb (truthy_opt_string organization')); [discriminate|].
    destruct id as [i|]; [|discriminate].
    destruct (negb (truthy_id i)); [discriminate|].
    cbn [key_of]. intros [= <-]. now rewrite M.
  - unfold useModelTrashed.
    destruct (negb (truthy_opt_string organization')); [discriminate|].
    cbn [key_of]. intros [= <-]. now rewrite M.
  - unfold useModelAudit.
    destruct (negb (truthy_opt_string organization')); [discriminate|].
    destruct id as [i|]; [|discriminate].
    destruct (negb (truthy_id i)); [discriminate|].
    cbn [key_of]. intros [= <-]. now rewrite M.
Qed.

End HookFacts.
(* ================================================================== *)
(** ** The React Native storage adapter *)
(* ================================================================== *)

Section NativeStorageFacts.
Import NativeStorage.

(** X17: the cache behaves as a table.  What was set is read back at once,
    whether or not the write to [AsyncStorage] lands; what was removed
    reads as [null] -- or as the member of [Object.prototype] of that name,
    when there is one; and neither touches another key.  The one key that
    cannot be stored is [__proto__]. *)
Theorem native_cache_round_trip (landed : bool) (s : State)
  (key value : string) :
  key <> "__proto__" ->
  getItem (cache (setItem landed s key value)) key = Text value
  /\ getItem (cache (removeItem landed (setItem landed s key value) key)) key
     = (if inherited key then Inherited else Null)
  /\ forall other,
       other <> key ->
       getItem (cache (setItem landed s key value)) other
       = getItem (cache s) other
       /\ getItem (cache (removeItem landed s key)) other
          = getItem (cache s) other.
Proof.
  intros P. apply String.eqb_neq in P.
  unfold getItem, setItem, removeItem, assign, delete_key. cbn [cache].
  rewrite P, String.eqb_refl. repeat split;
    apply String.eqb_neq in H; now rewrite H.
Qed.

Lemma native_cache_round_trip_witness :
  getItem (cache (setItem false (fresh (fun _ => None)) "token" "abc")) "token"
  = Text "abc"
  /\ getItem
       (cache (removeItem false
                 (setItem false (fresh (fun _ => None)) "token" "abc")
                 "token")) "token" = Null.
Proof.
  destruct (native_cache_round_trip false (fresh (fun _ => None))
              "token" "abc") as [S [R _]]; [discriminate|].
  split; [exact S|exact R].
Defined.

Lemma load_spec (d : Disk) (ks : list string) (c : Cache) (k : string) :
  load d c ks k
  = match (if existsb (String.eqb k) ks && negb (String.eqb k "__proto__")
           then d k else None) with
    | Some v => Some v
    | None => c k
    end.
Proof.
  unfold load. revert c. induction ks as [|x ks IH]; intros c; [reflexivity|].
  cbn [fold_left existsb]. rewrite IH. clear IH.
  destruct (String.eqb k x) eqn:E.
  - apply String.eqb_eq in E. subst x. cbn [orb andb].
    destruct (String.eqb k "__proto__") eqn:P; cbn [negb].
    + rewrite andb_false_r. destruct (d k); [|reflexivity].
      unfold assign. now rewrite P.
    + destruct (existsb (String.eqb k) ks); cbn [andb].
      * destruct (d k) as [v|]; reflexivity.
      * destruct (d k) as [v|]; [|reflexivity].
        unfold assign. now rewrite P, String.eqb_refl.
  - cbn [orb]. destruct (d x) as [v|]; [|reflexivity].
    unfold assign. destruct (String.eqb x "__proto__"); [reflexivity|].
    now rewrite E.
Qed.

Lemma is_key_plain (k : string) :
  is_key k = true -> String.eqb k "__proto__" = false.
Proof.
  unfold is_key, keys. cbn [existsb]. rewrite orb_false_r.
  intros H. apply String.eqb_neq. intros ->. discriminate.
Qed.

Lemma initStorage_cache (s : State) (k : string) :
  cache (initStorage s) k
  = (if is_key k
     then match disk s k with
          | Some v => Some v
          | None => cache s k
          end
     else cache s k).
Proof.
  unfold initStorage. cbn [cache]. rewrite load_spec.
  fold (is_key k). destruct (is_key k) eqn:K; [|reflexivity].
  now rewrite (is_key_plain k K).
Qed.

(** X18: [initStorage] brings in the stored values of the four keys token,
    user, organization_slug and last_organization; a key of the four that
    [AsyncStorage] does not hold keeps what the cache has, and every other
    key is left alone. *)
Theorem initStorage_loads_known_keys (s : State) (k : string) :
  cache (initStorage s) k
  = (if is_key k
     then match disk s k with
          | Some v => Some v
          | None => cache s k
          end
     else cache s k)
  /\ initialized (initStorage s) = true
  /\ disk (initStorage s) = disk s.
Proof.
  split; [apply initStorage_cache|]. split; reflexivity.
Qed.

(** X19: only the four keys outlive a restart.  A value written under one
    of them is read back after the app starts again, provided the write to
    [AsyncStorage] landed; a write that failed leaves no trace; a value
    under any other key is gone. *)
Theorem native_restart (s : State) (key value : string) :
  (is_key key = true ->
   getItem (cache (restart (setItem true s key value))) key = Text value)
  /\ (forall k,
        cache (restart (setItem false s key value)) k = cache (restart s) k)
  /\ (is_key key = false ->
      forall landed,
        cache (restart (setItem landed s key value)) key = None).
Proof.
  unfold restart. repeat split.
  - intros K.
    pose proof (initStorage_cache
                  (fresh (disk (setItem true s key value))) key) as E.
    unfold getItem. rewrite E, K. cbn [disk fresh setItem].
    now rewrite String.eqb_refl.
  - intros K landed.
    pose proof (initStorage_cache
                  (fresh (disk (setItem landed s key value))) key) as E.
    now rewrite E, K.
Qed.

Lemma native_restart_witness :
  getItem
    (cache (restart (setItem true (fresh (fun _ => None)) "token" "abc")))
    "token" = Text "abc"
  /\ cache (restart (setItem true (fresh (fun _ => None)) "theme" "dark"))
       "theme" = None.
Proof.
  split.
  - apply (native_restart (fresh (fun _ => None)) "token" "abc"). reflexivity.
  - apply (native_restart (fresh (fun _ => None)) "theme" "dark"). reflexivity.
Defined.

End NativeStorageFacts.
(* ================================================================== *)
(** ** The organization, the session and the API client *)
(* ================================================================== *)

Section SessionFacts.
Import Js WebStorage Session UseModel ModelHooks Writes Samples.

Lemma truthy_string_value (slug : option string) :
  truthy_opt_string slug = true -> Some (string_value slug) = slug.
Proof. destruct slug; [reflexivity|discriminate]. Qed.

Lemma stored_after_set (slug : option string) (w : World) :
  getItem (local (setOrganization slug w)) "organization_slug"
  = (if truthy_opt_string slug then slug else None).
Proof.
  unfold setOrganization, emit, store, remove, getItem, setItem, removeItem.
  destruct (truthy_opt_string slug) eqn:T; cbn [local]; simpl.
  - now apply truthy_string_value.
  - reflexivity.
Qed.









(** A hook subscribes in its effect, after its first render: a
    [setOrganization] that falls between the two does not reach it, and
    the hook keeps the organization it rendered with. *)
Example late_subscription_misses_change :
  run [Render; SetOrganization (Some "acme"); Effect 0] blank
  = {| local := setItem WebStorage.empty "organization_slug" "acme";
       mounted := [None]; rendering := [];
       emitted := [("organization_slug", Some "acme")] |}
  /\ ~ coherent (run [Render; SetOrganization (Some "acme"); Effect 0] blank).
Proof.
  split; [reflexivity|].
  intros C. unfold coherent in C. apply Forall_app in C. destruct C as [M _].
  cbn in M. inversion M as [|x l [A _] F]. discriminate A.
Qed.



(** X21: the two [setOrganization] functions leave the same slug, notify
    the same subscribers and emit the same event; they differ on
    [last_organization] only, which the one of the auth context keeps equal
    to the slug and the one of useOrganization.js does not touch. *)
Theorem setOrganization_twins (slug : option string) (w : World) :
  (forall k,
      k <> "last_organization" ->
      getItem (local (auth_setOrganization slug w)) k
      = getItem (local (setOrganization slug w)) k)
  /\ mounted (auth_setOrganization slug w) = mounted (setOrganization slug w)
  /\ emitted (auth_setOrganization slug w)
     = (emitted w ++ [("organization_slug", slug)])%list
  /\ emitted (setOrganization slug w)
     = (emitted w ++ [("organization_slug", slug)])%list
  /\ getItem (local (auth_setOrganization slug w)) "last_organization"
     = getItem (local (auth_setOrganization slug w)) "organization_slug"
  /\ getItem (local (setOrganization slug w)) "last_organization"
     = getItem (local w) "last_organization".
Proof.
  unfold auth_setOrganization, setOrganization, emit, store, remove, getItem,
    setItem, removeItem.
  destruct (truthy_opt_string slug); cbn [local mounted emitted];
    repeat split; try reflexivity;
    intros k K; apply String.eqb_neq in K; now rewrite K.
Qed.

(** X22: after a logout and the token effect that follows it, the token,
    the user and both organization keys are gone from the storage, whether
    or not the backend answered, and nothing else in the storage changed;
    no event is emitted, so a mounted [useOrganization] keeps its state. *)
Theorem logout_clears_session (answered : bool) (w : World) :
  (forall k,
      getItem (local (logout_then_effect answered w)) k
      = if existsb (String.eqb k)
             ["token"; "user"; "organization_slug"; "last_organization"]
        then None
        else getItem (local w) k)
  /\ mounted (logout_then_effect answered w) = mounted w
  /\ emitted (logout_then_effect answered w) = emitted w.
Proof.
  unfold logout_then_effect, logout, token_effect, remove, getItem,
    removeItem.
  cbn [fst snd truthy_opt_string local mounted emitted existsb].
  repeat split. intros k.
  destruct (String.eqb k "token"); [reflexivity|].
  destruct (String.eqb k "organization_slug"); cbn [orb];
    [now rewrite ?orb_true_r|].
  destruct (String.eqb k "last_organization"); cbn [orb];
    [now rewrite ?orb_true_r|].
  destruct (String.eqb k "user"); reflexivity.
Qed.

(** *** The API client *)

(** X23: a 401 signs the user out: the token leaves the storage and nothing
    else does, the next request carries no Authorization header of the
    client's making, the error is passed on as it came, and exactly one of
    three things happens besides: the configured handler is called once,
    or, without a handler, the page is sent to [/], or, without a window
    either, nothing. *)
Theorem unauthorized_signs_out (e : TransportError) (c : Client)
  (ls : LocalStorage) (headers : RequestHeaders) :
  status e = Some 401 ->
  fst (fst (on_response_error e c ls)) = Original e
  /\ getItem (snd (on_response_error e c ls)) "token" = None
  /\ (forall k, k <> "token" ->
                getItem (snd (on_response_error e c ls)) k = getItem ls k)
  /\ attach_token (snd (on_response_error e c ls)) headers = headers
  /\ baseURL (snd (fst (on_response_error e c ls))) = baseURL c
  /\ onUnauthorized (snd (fst (on_response_error e c ls))) = onUnauthorized c
  /\ (handler_calls (snd (fst (on_response_error e c ls))),
      location (snd (fst (on_response_error e c ls))))
     = match onUnauthorized c with
       | Some h => ((handler_calls c ++ [h])%list, location c)
       | None => (handler_calls c, if has_window c then "/" else location c)
       end.
Proof.
  intros S. unfold on_response_error, is_cors. rewrite S.
  cbn [fst snd]. unfold attach_token, getItem, removeItem.
  cbn [String.eqb Ascii.eqb Bool.eqb truthy_opt_string].
  refine (conj _ (conj _ (conj _ (conj _ (conj _ (conj _ _)))))).
  - reflexivity.
  - reflexivity.
  - intros k K. apply String.eqb_neq in K. now rewrite K.
  - reflexivity.
  - destruct (onUnauthorized c); [reflexivity|].
    destruct (has_window c); reflexivity.
  - destruct (onUnauthorized c) eqn:U; [reflexivity|].
    destruct (has_window c); cbn [onUnauthorized]; congruence.
  - destruct (onUnauthorized c); [reflexivity|].
    destruct (has_window c); reflexivity.
Qed.

Lemma unauthorized_signs_out_witness :
  getItem
    (snd (on_response_error {| status := Some 401; message := None |}
            {| baseURL := "/api"; onUnauthorized := None; has_window := true;
               location := "/acme/dashboard"; handler_calls := [] |}
            (setItem WebStorage.empty "token" "abc"))) "token" = None
  /\ location
       (snd (fst (on_response_error {| status := Some 401; message := None |}
                    {| baseURL := "/api"; onUnauthorized := None;
                       has_window := true; location := "/acme/dashboard";
                       handler_calls := [] |}
                    (setItem WebStorage.empty "token" "abc")))) = "/".
Proof.
  destruct (unauthorized_signs_out {| status := Some 401; message := None |}
              {| baseURL := "/api"; onUnauthorized := None;
                 has_window := true; location := "/acme/dashboard";
                 handler_calls := [] |}
              (setItem WebStorage.empty "token" "abc")
              (fun _ => None) eq_refl) as [_ [T [_ [_ [_ [_ H]]]]]].
  split; [exact T|]. exact (f_equal snd H).
Defined.

(** X24: every other error leaves the client and the storage as they are:
    it is passed on unchanged, or, when there is no response and the
    message mentions CORS, replaced by the CORS error. *)
Theorem other_errors_change_nothing (e : TransportError) (c : Client)
  (ls : LocalStorage) :
  status e <> Some 401 ->
  on_response_error e c ls
  = (if is_cors e then CorsError else Original e, c, ls)
  /\ (is_cors e = true -> status e = None).
Proof.
  intros S. split.
  - unfold on_response_error. destruct (is_cors e); [reflexivity|].
    destruct (status e) as [[|p|p]|]; try reflexivity.
    do 9 (destruct p as [p|p|]; try reflexivity).
    exfalso. now apply S.
  - unfold is_cors. destruct (status e); [discriminate|reflexivity].
Qed.

Lemma other_errors_change_nothing_witness :
  on_response_error
    {| status := None; message := Some "Network Error: CORS" |}
    {| baseURL := "/api"; onUnauthorized := None; has_window := true;
       location := "/acme"; handler_calls := [] |}
    (setItem WebStorage.empty "token" "abc")
  = (CorsError,
     {| baseURL := "/api"; onUnauthorized := None; has_window := true;
        location := "/acme"; handler_calls := [] |},
     setItem WebStorage.empty "token" "abc").
Proof.
  destruct (other_errors_change_nothing
              {| status := None; message := Some "Network Error: CORS" |}
              {| baseURL := "/api"; onUnauthorized := None;
                 has_window := true; location := "/acme";
                 handler_calls := [] |}
              (setItem WebStorage.empty "token" "abc")) as [E _];
    [discriminate|]. exact E.
Defined.

(** X25: the token state decides the Authorization header: once the effect
    has run on a usable token, every request gets [Bearer <token>], also
    over a header the caller has set; once it has run on no token, the
    headers of a request are left as they are.  No other header is ever
    touched. *)
Theorem token_drives_authorization (token : option string) (w : World)
  (headers : RequestHeaders) :
  attach_token (local (token_effect token w)) headers "Authorization"
  = (if truthy_opt_string token
     then Some ("Bearer " ++ string_value token)
     else headers "Authorization")
  /\ forall name,
       name <> "Authorization" ->
       attach_token (local (token_effect token w)) headers name
       = headers name.
Proof.
  unfold token_effect, attach_token, store, remove, getItem, setItem,
    removeItem.
  destruct (truthy_opt_string token) eqn:T; cbn [local]; simpl.
  - destruct token as [[|c t]|]; try discriminate. simpl. split.
    + reflexivity.
    + intros name N. apply String.eqb_neq in N. now rewrite N.
  - split; reflexivity.
Qed.

(** X26: [configureApi] can set but not unset: a base URL that is given
    replaces the old one and an empty or missing one keeps it; a handler
    that is given replaces the old one and a missing one keeps it; applying
    the same options twice is applying them once. *)
Theorem configureApi_only_sets (options : ApiOptions) (c : Client) :
  baseURL (configureApi options c)
  = (if truthy_opt_string (opt_baseURL options)
     then string_value (opt_baseURL options) else baseURL c)
  /\ onUnauthorized (configureApi options c)
     = match opt_onUnauthorized options with
       | Some h => Some h
       | None => onUnauthorized c
       end
  /\ has_window (configureApi options c) = has_window c
  /\ location (configureApi options c) = location c
  /\ handler_calls (configureApi options c) = handler_calls c
  /\ configureApi options (configureApi options c) = configureApi options c.
Proof.
  unfold configureApi.
  destruct (truthy_opt_string (opt_baseURL options)),
    (opt_onUnauthorized options); cbn; repeat split; destruct c; reflexivity.
Qed.

(** *** From the stored organization to the requests *)



(** X28: after [setOrganization] with a slug that is usable also when
    trimmed, a hook that mounts finds that slug, and [useModelIndex] hands
    over an enabled query that makes one GET -- of the URL [buildQueryUrl]
    gives for the slug -- and returns the body with the pagination read
    from the headers of that response. *)
Theorem set_organization_reaches_index (api : Api) (slug : string) (w : World)
  (model : string) (options : ModelQueryOptions) :
  trim slug <> "" ->
  organization_after (Some slug) w = Some slug
  /\ exists url k fn,
       buildQueryUrl model slug options = Return url
       /\ useModelIndex api (organization_after (Some slug) w) model options
          = Return (UseQuery k fn true)
       /\ forall calls,
            fn calls
            = (bind (api {| verb := Get; target := url; payload := None |})
                 (fun r =>
                    Return
                      {| page_data := reply_data r;
                         pagination :=
                           Pagination.extractPaginationFromHeaders
                             {| Pagination.headers := reply_headers r |} |}),
               (calls ++ [{| verb := Get; target := url; payload := None |}])%list).
Proof.
  intros T.
  assert (truthy_string slug = true) as O.
  { apply truthy_nonempty. intros ->. now apply T. }
  assert (organization_after (Some slug) w = Some slug) as M.
  { unfold organization_after, useOrganization_render. cbn [fst].
    rewrite stored_after_set. cbn [truthy_opt_string]. now rewrite O. }
  split; [exact M|]. rewrite M.
  unfold useModelIndex. cbn [truthy_opt_string slug_text]. rewrite O.
  cbn [negb]. rewrite (buildQueryUrl_returns _ _ _ T). cbn [bind].
  do 3 eexists. split; [reflexivity|]. split; [reflexivity|].
  intros calls. unfold get_page, then_, request, ret.
  destruct (api _); reflexivity.
Qed.

Lemma set_organization_reaches_index_witness :
  organization_after (Some "acme")
    {| local := WebStorage.empty; mounted := []; rendering := [];
       emitted := [] |}
  = Some "acme".
Proof.
  apply (set_organization_reaches_index quiet "acme"
           {| local := WebStorage.empty; mounted := []; rendering := [];
              emitted := [] |}
           "posts" no_options).
  discriminate.
Defined.

End SessionFacts.
(* ================================================================== *)
(** ** The owner of the organization *)
(* ================================================================== *)

Section OwnerFacts.
Import Js UseModel ModelHooks Writes Owner.

Lemma find_slug_spec (targetSlug : string) (items : list Json) :
  ~ In JNull items ->
  match find_slug targetSlug items with
  | Some (Some org) => In org items /\ is_org targetSlug org = true
  | Some None => forall o, In o items -> is_org targetSlug o = false
  | None => False
  end.
Proof.
  induction items as [|o items IH]; intros N; cbn [find_slug].
  - intros o [].
  - assert (o <> JNull) as O by (intros ->; apply N; now left).
    assert (~ In JNull items) as N' by (intros I; apply N; now right).
    specialize (IH N').
    destruct (has_slug targetSlug o) as [[|]|] eqn:H.
    + split; [now left|]. unfold is_org. now rewrite H.
    + destruct (find_slug targetSlug items) as [[org|]|].
      * destruct IH as [I S]. split; [now right|assumption].
      * intros x [<-|I]; [|now apply IH]. unfold is_org. now rewrite H.
      * assumption.
    + destruct o; try discriminate. congruence.
Qed.

(** X29: what [useOwner] makes of a list of organizations without [null]
    entries: an organization with the slug asked for, when the list has
    one; otherwise the first entry of the list, whatever its slug; and
    [null] for the empty list. *)
Theorem owner_pick_from_list (targetSlug : string) (items : list Json) :
  ~ In JNull items ->
  exists r,
    pick targetSlug (JArr items) = Resolved r
    /\ ((In r items /\ is_org targetSlug r = true)
        \/ ((forall o, In o items -> is_org targetSlug o = false)
            /\ r = hd JNull items)).
Proof.
  intros N. pose proof (find_slug_spec targetSlug items N) as S.
  cbn [pick]. destruct (find_slug targetSlug items) as [[org|]|].
  - exists org. split; [reflexivity|now left].
  - eexists. split; [reflexivity|]. right. split; [assumption|].
    destruct items; reflexivity.
  - contradiction.
Qed.

Lemma owner_pick_from_list_witness :
  exists r,
    pick "acme"
      (JArr [JObj [("slug", JStr "other")]; JObj [("slug", JStr "acme")]])
    = Resolved r
    /\ ((In r [JObj [("slug", JStr "other")]; JObj [("slug", JStr "acme")]]
         /\ is_org "acme" r = true)
        \/ ((forall o,
                In o [JObj [("slug", JStr "other")];
                      JObj [("slug", JStr "acme")]] ->
                is_org "acme" o = false)
            /\ r = hd JNull [JObj [("slug", JStr "other")];
                             JObj [("slug", JStr "acme")]])).
Proof.
  apply (owner_pick_from_list "acme"
           [JObj [("slug", JStr "other")]; JObj [("slug", JStr "acme")]]).
  intros [H|[H|[]]]; discriminate.
Defined.

Lemma has_slug_null (targetSlug : string) (o : Json) :
  has_slug targetSlug o = None <-> o = JNull.
Proof. destruct o; simpl; split; congruence. Qed.

(** X30: the query of [useOwner] fails with a TypeError exactly when the
    list holds a [null] entry with no organization of the slug asked for
    in front of it; a [null] behind such an organization is never looked
    at. *)
Theorem owner_null_entry (targetSlug : string) (items : list Json) :
  pick targetSlug (JArr items) = TypeError
  <-> exists pre post,
        items = (pre ++ JNull :: post)%list
        /\ forall o, In o pre -> is_org targetSlug o = false.
Proof.
  assert (pick targetSlug (JArr items) = TypeError
          <-> find_slug targetSlug items = None) as ->.
  { cbn [pick]. destruct (find_slug targetSlug items) as [[org|]|];
      split; congruence. }
  split.
  - induction items as [|o items IH]; cbn [find_slug]; [discriminate|].
    destruct (has_slug targetSlug o) as [[|]|] eqn:H; [discriminate| |].
    + intros F. destruct (IH F) as [pre [post [-> P]]].
      exists (o :: pre), post. split; [reflexivity|].
      intros x [<-|I]; [|now apply P]. unfold is_org. now rewrite H.
    + intros _. apply has_slug_null in H. subst o.
      exists [], items. split; [reflexivity|]. intros x [].
  - intros [pre [post [-> P]]].
    induction pre as [|o pre IH]; cbn [app find_slug]; [reflexivity|].
    assert (is_org targetSlug o = false) as O by (apply P; now left).
    unfold is_org in O.
    destruct (has_slug targetSlug o) as [[|]|]; [discriminate| |reflexivity].
    apply IH. intros x I. apply P. now right.
Qed.

(** [useOwner] asks for the slug it is given, and for the stored
    organization only when that slug is missing or empty; with neither it
    is idle and requests nothing.  Its query makes one GET, to a URL that
    carries the slug as it is in the path and percent-encoded in the
    filter, and passes a rejection of the transport on. *)
Lemma owner_target (api : Api) (slug organizationFromUrl : option string) :
  (truthy_opt_string slug = false ->
   truthy_opt_string organizationFromUrl = false ->
   useOwner api slug organizationFromUrl = Idle)
  /\ (forall target,
        (if truthy_opt_string slug then slug else organizationFromUrl)
        = Some target ->
        target <> "" ->
        exists fn,
          useOwner api slug organizationFromUrl
          = OwnerQuery ["owner"; target]
              ("/" ++ target ++ "/organizations?filter[slug]="
               ++ encodeURIComponent target ++ "&include=users")
              fn true
          /\ forall calls,
               fn calls
               = (match api {| verb := Get;
                               target :=
                                 "/" ++ target ++ "/organizations?filter[slug]="
                                 ++ encodeURIComponent target
                                 ++ "&include=users";
                               payload := None |} with
                  | Return response => pick target (reply_data response)
                  | Throw e => Rejected e
                  end,
                  (calls ++
                   [{| verb := Get;
                       target :=
                         "/" ++ target ++ "/organizations?filter[slug]="
                         ++ encodeURIComponent target ++ "&include=users";
                       payload := None |}])%list)).
Proof.
  split.
  - intros S O. unfold useOwner. rewrite S, O. reflexivity.
  - intros target E N. unfold useOwner. rewrite E.
    cbn [truthy_opt_string slug_text].
    apply truthy_nonempty in N. rewrite N. cbn [negb].
    eexists. split; reflexivity.
Qed.

End OwnerFacts.
